(** * ApiUsageService: quota check, usage ledger and dynamic adjustment

    A shallow embedding of [backend/services/api_usage_service.py] (class
    [ApiUsageService]) and of the [UserProfile] model from
    [backend/models/user_models.py].

    - Firestore documents are Python dicts: finite maps from field names to
      scalar values ([doc]).
    - The document store is a component of [world]; every call to the store
      client may fail, which is driven by a fault plan carried in the world.
    - Python exceptions are explicit: pure operations live in [result], code
      that talks to the store lives in the state-and-error monad [M].
    - Floating point ([usage / cap * 100], [limit * factor]) is idealised by
      exact rationals. *)

From Stdlib Require Import ZArith QArith String List Lia.
From stdpp Require Import gmap strings list fin_maps.

Local Open Scope string_scope.
Local Open Scope Z_scope.

(** ** Values and exceptions *)

(** The scalars that occur in the documents of this service. *)
Inductive pyval : Type :=
  | VNone
  | VBool (b : bool)
  | VInt (z : Z)
  | VStr (s : string)
  | VTime (t : Z).

Global Instance pyval_eq_dec : EqDecision pyval.
Proof. solve_decision. Defined.

(** A Firestore document / Python dict with string keys. *)
Abbreviation doc := (gmap string pyval).

Inductive exn : Type :=
  | AttributeError
  | TypeError
  | KeyError
  | StoreError (msg : string).

Global Instance exn_eq_dec : EqDecision exn.
Proof. solve_decision. Defined.

Inductive result (A : Type) : Type :=
  | Ok (a : A)
  | Raise (e : exn).
Arguments Ok {A} a.
Arguments Raise {A} e.

Global Instance result_ret : MRet result := λ A a, Ok a.
Global Instance result_bind : MBind result := λ A B f r,
  match r with
  | Ok a => f a
  | Raise e => Raise e
  end.

Global Instance result_fmap : FMap result := λ A B f r,
  match r with
  | Ok a => Ok (f a)
  | Raise e => Raise e
  end.

(** ** Python operators on scalars *)

(** [bool] is a subclass of [int]. *)
Definition as_int (v : pyval) : option Z :=
  match v with
  | VInt z => Some z
  | VBool b => Some (if b then 1 else 0)
  | _ => None
  end.

(** Truth value, as tested by [if v] and [not v]. *)
Definition truthy (v : pyval) : bool :=
  match v with
  | VNone => false
  | VBool b => b
  | VInt z => negb (z =? 0)
  | VStr s => negb (String.eqb s EmptyString)
  | VTime _ => true
  end.

(** [a == b]: numbers compare by value, everything else structurally. *)
Definition py_eq (a b : pyval) : bool :=
  match as_int a, as_int b with
  | Some x, Some y => x =? y
  | _, _ => bool_decide (a = b)
  end.

Definition py_ne (a b : pyval) : bool := negb (py_eq a b).

(** [a + b] *)
Definition py_add (a b : pyval) : result pyval :=
  match as_int a, as_int b with
  | Some x, Some y => Ok (VInt (x + y))
  | _, _ =>
      match a, b with
      | VStr s, VStr t => Ok (VStr (String.append s t))
      | _, _ => Raise TypeError
      end
  end.

(** [a - b] *)
Definition py_sub (a b : pyval) : result pyval :=
  match as_int a, as_int b with
  | Some x, Some y => Ok (VInt (x - y))
  | _, _ => Raise TypeError
  end.

(** [a >= b]: defined between numbers, between strings and between
    timestamps; a [TypeError] otherwise. *)
Definition py_ge (a b : pyval) : result bool :=
  match as_int a, as_int b with
  | Some x, Some y => Ok (y <=? x)
  | _, _ =>
      match a, b with
      | VStr s, VStr t => Ok (negb (String.ltb s t))
      | VTime s, VTime t => Ok (t <=? s)
      | _, _ => Raise TypeError
      end
  end.

(** [a <= b], [a > b] *)
Definition py_le (a b : pyval) : result bool := py_ge b a.
Definition py_gt (a b : pyval) : result bool := negb <$> py_le a b.

(** [max(0, v)]: the first argument is kept unless the second is greater. *)
Definition py_max0 (v : pyval) : result pyval :=
  gt ← py_gt v (VInt 0);
  Ok (if gt : bool then v else VInt 0).

(** [d.get(key, default)] *)
Definition dict_get (d : doc) (key : string) (dflt : pyval) : pyval :=
  match d !! key with
  | Some v => v
  | None => dflt
  end.

(** [not d] for a value that is [None] or a dict. *)
Definition falsy_doc (d : option doc) : bool :=
  match d with
  | None => true
  | Some m => bool_decide (m = ∅)
  end.

(** ** The world: clock, document store, fault plan, error log *)

(** [UserProfile] of [backend/models/user_models.py]: its declared fields. *)
Record UserProfile : Type := {
  user_id : string;
  username : string;
  email : string;
  tier : string;
  roles : list string;
  status : string;
  created_at : option Z;
  last_login_at : option Z;
}.

(** The ['api_limits'] global configuration document: it may lack its
    ['limits'] field, which otherwise maps tier names to limit dicts. *)
Record LimitsDoc : Type := {
  limits : option (gmap string doc);
}.

Record world : Type := {
  (** [datetime.now(timezone.utc)] and its two renderings *)
  clock_now : Z;
  clock_month : string;
  clock_day : string;
  (** [artifacts/{app_id}/users]: the ids of the user documents *)
  users : list string;
  (** [artifacts/{app_id}/users/{user_id}/api_usage/{api_id}] *)
  api_usage : gmap (string * string) doc;
  (** [artifacts/{app_id}/users/{user_id}/user_api_configs/{api_id}] *)
  user_api_configs : gmap (string * string) doc;
  (** [global_configs/global_api_configs/{api_id}] *)
  global_api_configs : gmap string doc;
  (** [global_configs/api_limits] *)
  api_limits : option LimitsDoc;
  (** outcome of the coming store calls: [Some msg] makes the call raise *)
  faults : list (option string);
  (** records emitted through [logger.error] *)
  error_log : list exn;
}.

Definition set_faults (f : list (option string)) (w : world) : world :=
  {| clock_now := clock_now w; clock_month := clock_month w;
     clock_day := clock_day w; users := users w; api_usage := api_usage w;
     user_api_configs := user_api_configs w;
     global_api_configs := global_api_configs w; api_limits := api_limits w;
     faults := f; error_log := error_log w |}.

Definition set_api_usage (u : gmap (string * string) doc) (w : world) : world :=
  {| clock_now := clock_now w; clock_month := clock_month w;
     clock_day := clock_day w; users := users w; api_usage := u;
     user_api_configs := user_api_configs w;
     global_api_configs := global_api_configs w; api_limits := api_limits w;
     faults := faults w; error_log := error_log w |}.

Definition set_user_api_configs (c : gmap (string * string) doc) (w : world) : world :=
  {| clock_now := clock_now w; clock_month := clock_month w;
     clock_day := clock_day w; users := users w; api_usage := api_usage w;
     user_api_configs := c;
     global_api_configs := global_api_configs w; api_limits := api_limits w;
     faults := faults w; error_log := error_log w |}.

Definition set_api_limits (l : option LimitsDoc) (w : world) : world :=
  {| clock_now := clock_now w; clock_month := clock_month w;
     clock_day := clock_day w; users := users w; api_usage := api_usage w;
     user_api_configs := user_api_configs w;
     global_api_configs := global_api_configs w; api_limits := l;
     faults := faults w; error_log := error_log w |}.

Definition push_error (e : exn) (w : world) : world :=
  {| clock_now := clock_now w; clock_month := clock_month w;
     clock_day := clock_day w; users := users w; api_usage := api_usage w;
     user_api_configs := user_api_configs w;
     global_api_configs := global_api_configs w; api_limits := api_limits w;
     faults := faults w; error_log := error_log w ++ [e] |}.

(** State-and-error monad of the service's coroutines. *)
Definition M (A : Type) : Type := world → result A * world.

Global Instance M_ret : MRet M := λ A a w, (Ok a, w).
Global Instance M_bind : MBind M := λ A B f m w,
  match m w with
  | (Ok a, w') => f a w'
  | (Raise e, w') => (Raise e, w')
  end.

(** A pure computation inside a coroutine. *)
Definition lift {A} (r : result A) : M A := λ w, (r, w).

(** Read the world without touching the store (clock). *)
Definition ask {A} (f : world → A) : M A := λ w, (Ok (f w), w).

(** One awaited call to the store client: it consumes the head of the fault
    plan and either raises or runs [op] on the documents. *)
Definition store_call {A} (op : world → A * world) : M A := λ w,
  match faults w with
  | Some msg :: rest => (Raise (StoreError msg), set_faults rest w)
  | None :: rest => let '(a, w') := op (set_faults rest w) in (Ok a, w')
  | [] => let '(a, w') := op w in (Ok a, w')
  end.

(** [try: body  except Exception as e: handler(e)] *)
Definition try_except {A} (body : M A) (handler : exn → M A) : M A := λ w,
  match body w with
  | (Ok a, w') => (Ok a, w')
  | (Raise e, w') => handler e w'
  end.

(** [logger.error(...)] *)
Definition logger_error (e : exn) : M unit := λ w, (Ok tt, push_error e w).

(** *** The store client ([FirestoreManager]) as used by the service *)

Definition get_user_data_document (uid collection_name document_id : string)
  : M (option doc) :=
  store_call (λ w,
    (if String.eqb collection_name "api_usage"
     then api_usage w !! (uid, document_id)
     else if String.eqb collection_name "user_api_configs"
     then user_api_configs w !! (uid, document_id)
     else None, w)).

Definition set_user_data_document (uid collection_name document_id : string)
    (data : doc) : M unit :=
  store_call (λ w,
    (tt, if String.eqb collection_name "api_usage"
         then set_api_usage (<[(uid, document_id) := data]> (api_usage w)) w
         else if String.eqb collection_name "user_api_configs"
         then set_user_api_configs
                (<[(uid, document_id) := data]> (user_api_configs w)) w
         else w)).

(** [get_global_config_document(collection_name="global_api_configs", ...)] *)
Definition get_global_config_document (api_id : string) : M (option doc) :=
  store_call (λ w, (global_api_configs w !! api_id, w)).

(** [get_global_config("api_limits")] *)
Definition get_global_config_api_limits : M (option LimitsDoc) :=
  store_call (λ w, (api_limits w, w)).

(** [set_global_config("api_limits", {"limits": l})] *)
Definition set_global_config_api_limits (l : gmap string doc) : M unit :=
  store_call (λ w, (tt, set_api_limits (Some {| limits := Some l |}) w)).

(** [get_all_documents_in_collection("artifacts/{app_id}/users")], each
    result reduced to its [.id]. *)
Definition get_all_documents_in_users : M (list string) :=
  store_call (λ w, (users w, w)).

(** ** Local Python objects

    A local variable of the service holds either a dict or, where an
    [async def] method was called without [await], the coroutine object that
    call returned (the suspended computation, never run). *)
Inductive pyobj : Type :=
  | ODict (d : doc)
  | OCoroutine (c : M doc).

(** [o.get(key, default)]: a coroutine object has no attribute [get]. *)
Definition obj_get (o : pyobj) (key : string) (dflt : pyval) : result pyval :=
  match o with
  | ODict d => Ok (dict_get d key dflt)
  | OCoroutine _ => Raise AttributeError
  end.

(** [o[key]]: a coroutine object is not subscriptable. *)
Definition obj_getitem (o : pyobj) (key : string) : result pyval :=
  match o with
  | ODict d => match d !! key with Some v => Ok v | None => Raise KeyError end
  | OCoroutine _ => Raise TypeError
  end.

(** [o[key] = v] *)
Definition obj_setitem (o : pyobj) (key : string) (v : pyval) : result pyobj :=
  match o with
  | ODict d => Ok (ODict (<[key := v]> d))
  | OCoroutine _ => Raise TypeError
  end.

(** Handing [o] to the store client as document data. *)
Definition obj_data (o : pyobj) : result doc :=
  match o with
  | ODict d => Ok d
  | OCoroutine _ => Raise TypeError
  end.

(** [user_profile.get(key, default)]: [UserProfile] declares the eight fields
    above and no [get], and pydantic's [BaseModel] provides none, so the
    attribute lookup itself raises. *)
Definition UserProfile_get (p : UserProfile) (key : string) (dflt : pyval)
  : result pyval :=
  Raise AttributeError.

(** ** ApiUsageService *)

Definition _get_current_month_str : M string := ask clock_month.
Definition _get_current_day_str : M string := ask clock_day.

(** Lines 101-104. *)
Definition get_api_limits_config : M (gmap string doc) :=
  limits_doc ← get_global_config_api_limits;
  mret (match limits_doc with
        | Some {| limits := Some l |} => l
        | _ => ∅
        end).

(** Lines 127-133. *)
Definition get_user_api_usage_document (uid api_id : string) : M (option doc) :=
  get_user_data_document uid "api_usage" api_id.

(** Lines 314-320. *)
Definition get_user_api_config_document (uid api_id : string) : M (option doc) :=
  get_user_data_document uid "user_api_configs" api_id.

(** Lines 135-150: the month is examined first, then the day. *)
Definition _reset_usage_if_needed (usage_data : doc) : M doc :=
  current_month ← _get_current_month_str;
  current_day ← _get_current_day_str;
  let usage_data :=
    if py_ne (dict_get usage_data "last_reset_month" VNone) (VStr current_month)
    then <["last_reset_month" := VStr current_month]>
           (<["monthly_usage" := VInt 0]> usage_data)
    else usage_data in
  let usage_data :=
    if py_ne (dict_get usage_data "last_reset_day" VNone) (VStr current_day)
    then <["last_reset_day" := VStr current_day]>
           (<["daily_usage" := VInt 0]> usage_data)
    else usage_data in
  mret usage_data.

(** [usage_data[key] += 1] *)
Definition obj_incr (o : pyobj) (key : string) : result pyobj :=
  v ← obj_getitem o key;
  v' ← py_add v (VInt 1);
  obj_setitem o key v'.

(** Lines 152-186. Line 171 calls [_reset_usage_if_needed] without [await]
    and rebinds [usage_data] to the coroutine object. *)
Definition increment_api_usage (uid api_id : string) : M unit :=
  try_except
    (usage_data ← get_user_api_usage_document uid api_id;
     usage_data ←
       (if falsy_doc usage_data then
          current_month ← _get_current_month_str;
          current_day ← _get_current_day_str;
          now ← ask clock_now;
          mret (<["created_at" := VTime now]>
                 (<["last_reset_day" := VStr current_day]>
                 (<["last_reset_month" := VStr current_month]>
                 (<["daily_usage" := VInt 0]>
                 (<["monthly_usage" := VInt 0]>
                 (<["id" := VStr api_id]> (∅ : doc)))))))
        else mret (default ∅ usage_data));
     let usage_data := OCoroutine (_reset_usage_if_needed usage_data) in
     usage_data ← lift (obj_incr usage_data "monthly_usage");
     usage_data ← lift (obj_incr usage_data "daily_usage");
     now ← ask clock_now;
     usage_data ← lift (obj_setitem usage_data "last_updated_at" (VTime now));
     data ← lift (obj_data usage_data);
     set_user_data_document uid "api_usage" api_id data)
    (λ e, logger_error e).

(** [cfg.get(key, default) if cfg else default] *)
Definition config_get (cfg : option doc) (key : string) (dflt : pyval) : pyval :=
  if falsy_doc cfg then dflt else dict_get (default ∅ cfg) key dflt.

(** [limit is not None and usage >= limit] *)
Definition limit_hit (usage limit : pyval) : result bool :=
  if bool_decide (limit ≠ VNone) then py_ge usage limit else Ok false.

(** The block shared by stages 2 and 3 (lines 234-243 and 250-258): when
    either limit is set the block decides, otherwise control falls through. *)
Definition numeric_limits_stage (monthly daily usage_m usage_d : pyval)
  : result (option bool) :=
  if bool_decide (monthly ≠ VNone) || bool_decide (daily ≠ VNone) then
    hit_m ← limit_hit usage_m monthly;
    if hit_m : bool then Ok (Some false) else
    hit_d ← limit_hit usage_d daily;
    if hit_d : bool then Ok (Some false) else
    Ok (Some true)
  else Ok None.

(** Stage 2, lines 226-243: overrides set by the creator for this user. *)
Definition creator_override_stage (user_api_config : option doc)
    (usage_m usage_d : pyval) : result (option bool) :=
  let creator_override_unlimited :=
    config_get user_api_config "creator_override_unlimited" (VBool false) in
  let creator_override_monthly :=
    config_get user_api_config "creator_override_monthly" VNone in
  let creator_override_daily :=
    config_get user_api_config "creator_override_daily" VNone in
  if truthy creator_override_unlimited then Ok (Some true)
  else numeric_limits_stage creator_override_monthly creator_override_daily
         usage_m usage_d.

(** Stage 3, lines 247-258: limits the user set on a custom API. *)
Definition user_defined_stage (user_api_config : option doc)
    (usage_m usage_d : pyval) : result (option bool) :=
  let user_defined_limit_monthly :=
    config_get user_api_config "user_defined_limit_monthly" VNone in
  let user_defined_limit_daily :=
    config_get user_api_config "user_defined_limit_daily" VNone in
  numeric_limits_stage user_defined_limit_monthly user_defined_limit_daily
    usage_m usage_d.

(** [max(0, adjusted) if default != -1 else -1] *)
Definition effective_limit (default_limit adjusted : pyval) : result pyval :=
  if py_ne default_limit (VInt (-1)) then py_max0 adjusted else Ok (VInt (-1)).

(** [limit != -1 and usage >= limit] *)
Definition tier_limit_hit (usage limit : pyval) : result bool :=
  if py_ne limit (VInt (-1)) then py_ge usage limit else Ok false.

(** Stage 4, lines 262-287, from the limits configuration onwards. *)
Definition tier_default_stage (global_api_limits_config : gmap string doc)
    (user_tier : string) (usage_m usage_d : pyval) : result bool :=
  let tier_limits := default ∅ (global_api_limits_config !! user_tier) in
  let default_monthly_limit := dict_get tier_limits "monthly_calls" (VInt (-1)) in
  let default_daily_limit := dict_get tier_limits "daily_calls" (VInt (-1)) in
  let dynamic_monthly_adjustment :=
    dict_get tier_limits "dynamic_monthly_adjustment" (VInt 0) in
  let dynamic_daily_adjustment :=
    dict_get tier_limits "dynamic_daily_adjustment" (VInt 0) in
  adjusted_monthly_limit ← py_add default_monthly_limit dynamic_monthly_adjustment;
  adjusted_daily_limit ← py_add default_daily_limit dynamic_daily_adjustment;
  adjusted_monthly_limit ← effective_limit default_monthly_limit adjusted_monthly_limit;
  adjusted_daily_limit ← effective_limit default_daily_limit adjusted_daily_limit;
  hit_m ← tier_limit_hit usage_m adjusted_monthly_limit;
  if hit_m : bool then Ok false else
  hit_d ← tier_limit_hit usage_d adjusted_daily_limit;
  if hit_d : bool then Ok false else
  Ok true.

(** Lines 188-287. Line 216 calls [_reset_usage_if_needed] without [await]
    and rebinds [user_api_usage] to the coroutine object. *)
Definition check_api_limit (user_profile : UserProfile) (api_id : string) : M bool :=
  let uid := user_id user_profile in
  let user_tier := tier user_profile in
  let is_creator := bool_decide ("creator" ∈ roles user_profile) in
  (* 1. creator's global unlimited override *)
  unlimited ←
    (if is_creator
     then lift (truthy <$> UserProfile_get user_profile "unlimited_api_access" (VBool false))
     else mret false);
  if unlimited : bool then mret true else
  (* current usage of this user and API *)
  stored ← get_user_api_usage_document uid api_id;
  user_api_usage ←
    (if falsy_doc stored then
       current_month ← _get_current_month_str;
       current_day ← _get_current_day_str;
       mret (ODict (<["last_reset_day" := VStr current_day]>
                   (<["last_reset_month" := VStr current_month]>
                   (<["daily_usage" := VInt 0]>
                   (<["monthly_usage" := VInt 0]> (∅ : doc))))))
     else mret (OCoroutine (_reset_usage_if_needed (default ∅ stored))));
  current_monthly_usage ← lift (obj_get user_api_usage "monthly_usage" (VInt 0));
  current_daily_usage ← lift (obj_get user_api_usage "daily_usage" (VInt 0));
  (* 2. individual override set by the creator *)
  user_api_config ← get_user_api_config_document uid api_id;
  stage2 ← lift (creator_override_stage user_api_config
                   current_monthly_usage current_daily_usage);
  match stage2 with
  | Some verdict => mret verdict
  | None =>
    (* 3. user-defined limit *)
    stage3 ← lift (user_defined_stage user_api_config
                     current_monthly_usage current_daily_usage);
    match stage3 with
    | Some verdict => mret verdict
    | None =>
      (* 4. tier default with dynamic adjustment *)
      global_api_limits_config ← get_api_limits_config;
      lift (tier_default_stage global_api_limits_config user_tier
              current_monthly_usage current_daily_usage)
    end
  end.

(** *** Dynamic adjustment *)

(** Lines 367-378: the loop over the user documents. *)
Fixpoint sum_usage_loop (api_id period current_period_str : string)
    (user_ids : list string) (total_usage : pyval) : M pyval :=
  match user_ids with
  | [] => mret total_usage
  | uid :: rest =>
      usage_doc ← get_user_data_document uid "api_usage" api_id;
      total_usage ←
        (if falsy_doc usage_doc then mret total_usage else
         let usage_doc := default ∅ usage_doc in
         if String.eqb period "month"
            && py_eq (dict_get usage_doc "last_reset_month" VNone)
                     (VStr current_period_str)
         then lift (py_add total_usage (dict_get usage_doc "monthly_usage" (VInt 0)))
         else if String.eqb period "day"
            && py_eq (dict_get usage_doc "last_reset_day" VNone)
                     (VStr current_period_str)
         then lift (py_add total_usage (dict_get usage_doc "daily_usage" (VInt 0)))
         else mret total_usage);
      sum_usage_loop api_id period current_period_str rest total_usage
  end.

(** Lines 351-381. *)
Definition _get_total_default_api_usage (api_id period : string) : M pyval :=
  current_period_str ←
    (if String.eqb period "month" then _get_current_month_str
     else _get_current_day_str);
  users_docs ← get_all_documents_in_users;
  sum_usage_loop api_id period current_period_str users_docs (VInt 0).

(** One entry of [adjustment_rules]. *)
Record rule : Type := {
  threshold : Z;
  factor : Q;
}.

(** Lines 425-434, in the order the source lists them. *)
Definition adjustment_rules_monthly : list rule :=
  [ {| threshold := 80; factor := 75 # 100 |};
    {| threshold := 90; factor := 50 # 100 |} ].

Definition adjustment_rules_daily : list rule :=
  [ {| threshold := 70; factor := 80 # 100 |};
    {| threshold := 90; factor := 40 # 100 |} ].

(** [int(x)]: truncation towards zero. *)
Definition py_int (x : Q) : Z := Z.quot (Qnum x) (Zpos (Qden x)).

(** [int(original * factor) - original] *)
Definition scaled_delta (original : pyval) (f : Q) : result pyval :=
  match as_int original with
  | Some n => Ok (VInt (py_int (inject_Z n * f)%Q - n))
  | None => Raise TypeError
  end.

(** Lines 441-448 (and 451-456): the [for rule in ...] loop with its
    [break]; [new_adjustment] starts at 0. *)
Fixpoint first_rule_adjustment (rules : list rule) (usage_percentage : Q)
    (original : pyval) : result pyval :=
  match rules with
  | [] => Ok (VInt 0)
  | r :: rest =>
      if Qle_bool (inject_Z (threshold r)) usage_percentage then
        if py_ne original (VInt (-1)) then scaled_delta original (factor r)
        else Ok (VInt 0)
      else first_rule_adjustment rest usage_percentage original
  end.

(** Lines 437-460: the body of the loop over the tiers. *)
Definition adjust_tier (monthly_usage_percentage daily_usage_percentage : Q)
    (tier_limits : doc) : result doc :=
  let original_monthly := dict_get tier_limits "monthly_calls" (VInt (-1)) in
  let original_daily := dict_get tier_limits "daily_calls" (VInt (-1)) in
  new_monthly_adjustment ←
    first_rule_adjustment adjustment_rules_monthly monthly_usage_percentage
      original_monthly;
  new_daily_adjustment ←
    first_rule_adjustment adjustment_rules_daily daily_usage_percentage
      original_daily;
  Ok (<["dynamic_daily_adjustment" := new_daily_adjustment]>
     (<["dynamic_monthly_adjustment" := new_monthly_adjustment]> tier_limits)).

(** The loop over all tiers; an exception in any tier aborts the pass. *)
Definition adjust_all_tiers (monthly_usage_percentage daily_usage_percentage : Q)
    (tiers : gmap string doc) : result (gmap string doc) :=
  map_fold (λ tier_name tier_limits acc,
              acc ← acc;
              tier_limits ← adjust_tier monthly_usage_percentage
                              daily_usage_percentage tier_limits;
              Ok (<[tier_name := tier_limits]> acc))
           (Ok ∅) tiers.

(** [(total / cap) * 100 if cap > 0 else 0] *)
Definition usage_percentage (total cap : pyval) : result Q :=
  positive ← py_gt cap (VInt 0);
  if positive : bool then
    match as_int total, as_int cap with
    | Some t, Some c => Ok ((inject_Z t / inject_Z c) * inject_Z 100)%Q
    | _, _ => Raise TypeError
    end
  else Ok 0%Q.

(** Lines 383-465. *)
Definition _adjust_tier_limits_dynamically (api_id : string) : M unit :=
  global_api_config ← get_global_config_document api_id;
  if falsy_doc global_api_config then mret tt else
  let global_api_config := default ∅ global_api_config in
  let global_monthly_cap := dict_get global_api_config "global_monthly_cap" (VInt 100000) in
  let global_daily_cap := dict_get global_api_config "global_daily_cap" (VInt 5000) in
  no_monthly ← lift (py_le global_monthly_cap (VInt 0));
  no_caps ← (if no_monthly : bool then lift (py_le global_daily_cap (VInt 0))
             else mret false);
  if no_caps : bool then mret tt else
  current_total_monthly_usage ← _get_total_default_api_usage api_id "month";
  current_total_daily_usage ← _get_total_default_api_usage api_id "day";
  monthly_usage_percentage ←
    lift (usage_percentage current_total_monthly_usage global_monthly_cap);
  daily_usage_percentage ←
    lift (usage_percentage current_total_daily_usage global_daily_cap);
  current_tier_limits ← get_api_limits_config;
  updated_tier_limits ←
    lift (adjust_all_tiers monthly_usage_percentage daily_usage_percentage
            current_tier_limits);
  set_global_config_api_limits updated_tier_limits.

(** *** Administration, monitoring and the metered tool call *)

(** [HTTPException(status_code, detail)]. It is kept apart from the
    exceptions of [exn]: a coroutine that raises it ends in
    [HTTPException _ _] instead of [Returned _]. *)
Inductive http_detail : Type :=
  | DetailText (s : string)
  | DetailDict (d : doc).

Inductive outcome (A : Type) : Type :=
  | Returned (a : A)
  | HTTPException (status_code : Z) (detail : http_detail).
Arguments Returned {A} a.
Arguments HTTPException {A} status_code detail.

(** [ApiCallLimitUpdate] of [backend/models/admin_models.py]. *)
Module ApiCallLimitUpdate.
Record t : Type := {
  tier : string;
  limits : gmap string Z;
  replace_all_limits : option bool;
}.
End ApiCallLimitUpdate.

(** Lines 106-125. [{**old, **new}] keeps the fields of [old] that [new]
    does not name. *)
Definition update_api_limits (limit_update : ApiCallLimitUpdate.t)
  : M (outcome (gmap string doc)) :=
  current_limits_doc ← get_global_config_api_limits;
  let current_limits :=
    match current_limits_doc with
    | Some {| limits := Some l |} => l
    | _ => ∅
    end in
  let tier_name := ApiCallLimitUpdate.tier limit_update in
  let new_limits : doc := VInt <$> ApiCallLimitUpdate.limits limit_update in
  if negb (String.eqb tier_name EmptyString) then
    let updated_limits :=
      if default false (ApiCallLimitUpdate.replace_all_limits limit_update)
      then <[tier_name := new_limits]> current_limits
      else <[tier_name := new_limits ∪ default ∅ (current_limits !! tier_name)]>
             current_limits in
    _ ← set_global_config_api_limits updated_limits;
    mret (Returned updated_limits)
  else
    mret (HTTPException 400
            (DetailText "Tier must be specified for API limit update.")).

(** Lines 68-71: all documents of [global_api_configs], in the order the
    store lists them. *)
Definition get_global_api_configs : M (list doc) :=
  store_call (λ w, ((map_to_list (global_api_configs w)).*2, w)).

(** Lines 475-483: the loop of the monitoring task. A truthy [id] that is
    not a string cannot name a document: the store call made with it fails
    inside the [try]. *)
Fixpoint monitor_loop (global_apis : list doc) : M unit :=
  match global_apis with
  | [] => mret tt
  | api :: rest =>
      let api_id := dict_get api "id" VNone in
      _ ← (if truthy api_id then
             try_except
               match api_id with
               | VStr s => _adjust_tier_limits_dynamically s
               | _ => lift (Raise TypeError)
               end
               (λ e, logger_error e)
           else mret tt);
      monitor_loop rest
  end.

(** Lines 467-484. *)
Definition _monitor_global_api_usage_task : M unit :=
  global_apis ← get_global_api_configs;
  monitor_loop global_apis.

(** What a tool can be handed: scalars, and the two helper objects the
    Python interpreter tool receives. *)
Inductive tool_arg : Type :=
  | AVal (v : pyval)
  | AChartTools
  | AExportFunc.

(** A tool callable as [LLMService] wraps it: the API id that
    [get_tool_api_id] assigns to it, whether it is
    [python_interpreter_with_rbac], and the coroutine itself. *)
Record tool_func (Out : Type) : Type := {
  tool_api_id : string;
  is_python_interpreter : bool;
  tool_call : list tool_arg → gmap string tool_arg → M Out;
}.
Arguments tool_api_id {Out} _.
Arguments is_python_interpreter {Out} _.
Arguments tool_call {Out} _ _ _.

(** [backend/services/llm_service.py], lines 258-292, inside
    [chat_with_agent]; [user_profile] always has its [user_id] attribute. *)
Definition wrapped_tool_executor {Out} (user_profile : UserProfile)
    (tool : tool_func Out) (args : list tool_arg)
    (kwargs : gmap string tool_arg) : M (outcome Out) :=
  let uid := user_id user_profile in
  let api_id := tool_api_id tool in
  can_proceed ← check_api_limit user_profile api_id;
  if negb can_proceed then
    mret (HTTPException 403 (DetailDict
      {[ "message" := VStr (String.append "API limit exceeded for "
                           (String.append api_id
                           (String.append " for your tier ("
                           (String.append (tier user_profile)
                             "). Please upgrade your plan or try again later."))));
         "code" := VStr "API_LIMIT_EXCEEDED" ]}))
  else
    let tool_args := kwargs in
    let tool_args :=
      if bool_decide (tool_args !! "user_token" = None)
      then <["user_token" := AVal (VStr uid)]> tool_args
      else tool_args in
    let tool_args :=
      if is_python_interpreter tool
      then <["export_dataframe_to_file_func" := AExportFunc]>
             (<["chart_tools" := AChartTools]> tool_args)
      else tool_args in
    tool_output ← tool_call tool args tool_args;
    _ ← increment_api_usage uid api_id;
    mret (Returned tool_output).

(** ** Specification-side definitions *)

(** The documents of the store, without the clock, the fault plan and the
    log: what a read-only operation must leave as it found it. *)
Definition same_docs (w w' : world) : Prop :=
  users w' = users w ∧
  api_usage w' = api_usage w ∧
  user_api_configs w' = user_api_configs w ∧
  global_api_configs w' = global_api_configs w ∧
  api_limits w' = api_limits w.

Definition read_only {A} (m : M A) : Prop :=
  ∀ w, same_docs w (snd (m w)).

(** The stored marker differs from the current period string. *)
Definition marker_stale (usage_data : doc) (marker current : string) : bool :=
  negb (bool_decide (usage_data !! marker = Some (VStr current))).

(** A stored counter read as a number; an absent counter reads as 0. *)
Definition counter_value (usage_data : doc) (counter : string) : Z :=
  match usage_data !! counter with
  | Some v => default 0 (as_int v)
  | None => 0
  end.

(** The counter is absent or holds a number. *)
Definition counter_numeric (usage_data : doc) (counter : string) : bool :=
  match usage_data !! counter with
  | Some v => bool_decide (is_Some (as_int v))
  | None => true
  end.

(** Every usage record of [api_id] stores numeric counters. *)
Definition usage_numeric (api_id : string) (w : world) : Prop :=
  ∀ uid d, api_usage w !! (uid, api_id) = Some d →
    counter_numeric d "monthly_usage" = true ∧
    counter_numeric d "daily_usage" = true.

(** What one user's record adds to the cross-user total, in the words of the
    specification: the stored counter when the record's period marker equals
    the current period, zero for a stale (or absent) record. *)
Definition user_contribution (w : world) (api_id marker counter current uid : string) : Z :=
  match api_usage w !! (uid, api_id) with
  | Some d => if marker_stale d marker current then 0 else counter_value d counter
  | None => 0
  end.

(** The sum of the contributions over all users. *)
Definition total_consumption (w : world) (api_id marker counter current : string) : Z :=
  foldr (λ uid acc, user_contribution w api_id marker counter current uid + acc)
        0 (users w).

(** Effective limit and denial rule of stage 4 on integers, in the words of
    the specification. *)
Definition effective (static_limit adjustment : Z) : Z :=
  if static_limit =? -1 then -1 else Z.max 0 (static_limit + adjustment).

Definition exceeds (usage limit : Z) : bool :=
  negb (limit =? -1) && (limit <=? usage).

(** An optional numeric threshold as stored in a config ([None] when unset),
    and whether a usage reaches it. *)
Definition limit_of (o : option Z) : pyval :=
  match o with
  | Some n => VInt n
  | None => VNone
  end.

Definition reached (usage : Z) (o : option Z) : bool :=
  match o with
  | Some n => n <=? usage
  | None => false
  end.

(** Stages 2 to 4 on given usage values, with both config and limits at
    hand: each stage either decides or hands over to the next. *)
Definition decide_with_usage (user_api_config : option doc)
    (global_api_limits_config : gmap string doc) (user_tier : string)
    (usage_m usage_d : pyval) : result bool :=
  stage2 ← creator_override_stage user_api_config usage_m usage_d;
  match stage2 with
  | Some verdict => Ok verdict
  | None =>
      stage3 ← user_defined_stage user_api_config usage_m usage_d;
      match stage3 with
      | Some verdict => Ok verdict
      | None => tier_default_stage global_api_limits_config user_tier
                  usage_m usage_d
      end
  end.

(** The tier limits as [get_api_limits_config] reads them. *)
Definition limits_config (w : world) : gmap string doc :=
  match api_limits w with
  | Some {| limits := Some l |} => l
  | _ => ∅
  end.

(** The dynamic adjustment stored for a tier. *)
Definition stored_adjustment (w : world) (tier_name field : string) : option pyval :=
  match api_limits w with
  | Some {| limits := Some l |} => l !! tier_name ≫= (λ d : doc, d !! field)
  | _ => None
  end.

(** The usage counter stored for a user and API. *)
Definition stored_counter (w : world) (uid api_id counter : string) : option pyval :=
  api_usage w !! (uid, api_id) ≫= (λ d : doc, d !! counter).

(** A stored record as the ledger's reconciliation returns it. *)
Definition reconciled (w : world) (d : doc) : doc :=
  match _reset_usage_if_needed d w with
  | (Ok d', _) => d'
  | (Raise _, _) => d
  end.

(** The sum over all users of a counter of their reconciled records. *)
Definition reconciled_total (w : world) (api_id counter : string) : Z :=
  foldr (λ uid acc,
           match api_usage w !! (uid, api_id) with
           | Some d => counter_value (reconciled w d) counter
           | None => 0
           end + acc)
        0 (users w).

(** [(total / cap) * 100 if cap > 0 else 0] on integers. *)
Definition pct_of (total cap : Z) : Q :=
  if 0 <? cap then (inject_Z total / inject_Z cap * inject_Z 100)%Q else 0%Q.

(** The conditions under which a dynamic adjustment pass for [api_id] gets
    as far as its loop over the tiers: the store answers, the usage counters
    are numbers, the API has a (non-empty) global config whose caps are the
    numbers [cap_m] and [cap_d], and at least one cap is positive. *)
Definition pass_ready (api_id : string) (w : world) (cap_m cap_d : Z) : Prop :=
  faults w = [] ∧ usage_numeric api_id w ∧
  (∃ cfg : doc, global_api_configs w !! api_id = Some cfg ∧ cfg ≠ ∅ ∧
     as_int (dict_get cfg "global_monthly_cap" (VInt 100000)) = Some cap_m ∧
     as_int (dict_get cfg "global_daily_cap" (VInt 5000)) = Some cap_d) ∧
  (0 < cap_m ∨ 0 < cap_d).

(** The utilisation percentages a pass computes. *)
Definition monthly_pct (api_id : string) (w : world) (cap_m : Z) : Q :=
  pct_of (total_consumption w api_id "last_reset_month" "monthly_usage"
            (clock_month w)) cap_m.

Definition daily_pct (api_id : string) (w : world) (cap_d : Z) : Q :=
  pct_of (total_consumption w api_id "last_reset_day" "daily_usage"
            (clock_day w)) cap_d.

(** A field of a tier's entry in the limits configuration. *)
Definition tier_field (w : world) (tier_name field : string) : option pyval :=
  limits_config w !! tier_name ≫= (λ d : doc, d !! field).

(** The static limit field and the adjustment field of a period. *)
Definition period_fields (static dynamic : string) : Prop :=
  (static = "monthly_calls" ∧ dynamic = "dynamic_monthly_adjustment") ∨
  (static = "daily_calls" ∧ dynamic = "dynamic_daily_adjustment").

(** ** Concrete scenarios *)

Definition mk_profile (uid tier_name : string) (rs : list string) : UserProfile :=
  {| user_id := uid; username := uid; email := "user@example.org";
     tier := tier_name; roles := rs; status := "active";
     created_at := None; last_login_at := None |}.

Definition mk_usage (m d : Z) (month day : string) : doc :=
  {[ "monthly_usage" := VInt m; "daily_usage" := VInt d;
     "last_reset_month" := VStr month; "last_reset_day" := VStr day ]}.

(** A world on 2025-06-15 with one user document ["u1"]. *)
Definition mk_world (usage configs : gmap (string * string) doc)
    (apis : gmap string doc) (lim : option LimitsDoc) : world :=
  {| clock_now := 1749988800; clock_month := "2025-06";
     clock_day := "2025-06-15"; users := ["u1"];
     api_usage := usage; user_api_configs := configs;
     global_api_configs := apis; api_limits := lim;
     faults := []; error_log := [] |}.

Definition free_tier (monthly daily : Z) : option LimitsDoc :=
  Some {| limits := Some {[ "free" :=
    ({[ "monthly_calls" := VInt monthly; "daily_calls" := VInt daily ]} : doc) ]} |}.

(** Global usage at 95% of both caps; the free tier allows 100 and 100. *)
Definition world_95_percent : world :=
  mk_world {[ ("u1", "weather") := mk_usage 95 95 "2025-06" "2025-06-15" ]} ∅
    {[ "weather" := ({[ "global_monthly_cap" := VInt 100;
                        "global_daily_cap" := VInt 100 ]} : doc) ]}
    (free_tier 100 100).

(** Global usage at 85% of both caps. *)
Definition world_85_percent : world :=
  mk_world {[ ("u1", "weather") := mk_usage 85 85 "2025-06" "2025-06-15" ]} ∅
    {[ "weather" := ({[ "global_monthly_cap" := VInt 100;
                        "global_daily_cap" := VInt 100 ]} : doc) ]}
    (free_tier 100 100).

(** Tier default 100 monthly calls with adjustment -30, no daily limit, and a
    stored usage record with the given monthly usage in the current period. *)
Definition world_adjusted (monthly_usage : Z) : world :=
  mk_world {[ ("u1", "weather") := mk_usage monthly_usage 0 "2025-06" "2025-06-15" ]} ∅ ∅
    (Some {| limits := Some {[ "free" :=
      ({[ "monthly_calls" := VInt 100; "daily_calls" := VInt (-1);
          "dynamic_monthly_adjustment" := VInt (-30) ]} : doc) ]} |}).

(** The user holds [creator_override_unlimited]; the tier default is 0. *)
Definition world_override_unlimited : world :=
  mk_world {[ ("u1", "weather") := mk_usage 3 1 "2025-06" "2025-06-15" ]}
    {[ ("u1", "weather") := ({[ "creator_override_unlimited" := VBool true ]} : doc) ]}
    ∅ (free_tier 0 0).

(** No user API config, no limits document, one stored usage record. *)
Definition world_no_limits : world :=
  mk_world {[ ("u1", "weather") := mk_usage 5 2 "2025-06" "2025-06-15" ]} ∅ ∅ None.

(** Three users: a record in the current period, a record left over from
    May, and a user without a record. *)
Definition world_three_users : world :=
  {| clock_now := 1749988800; clock_month := "2025-06";
     clock_day := "2025-06-15"; users := ["u1"; "u2"; "u3"];
     api_usage := {[ ("u1", "weather") := mk_usage 40 4 "2025-06" "2025-06-15";
                     ("u2", "weather") := mk_usage 30 9 "2025-05" "2025-05-31" ]};
     user_api_configs := ∅; global_api_configs := ∅; api_limits := None;
     faults := []; error_log := [] |}.

(** A record last reset the day before, in the current month. *)
Definition usage_yesterday : doc := mk_usage 12 7 "2025-06" "2025-06-14".

(** No stored usage; the user capped their own API at 50 calls a month; the
    tier default is 0. *)
Definition world_user_limit : world :=
  mk_world ∅
    {[ ("u1", "custom") := ({[ "user_defined_limit_monthly" := VInt 50 ]} : doc) ]}
    ∅ (free_tier 0 0).

(** No stored usage; the creator set a daily override of 0 next to the
    user's own monthly limit of 50; the tier default is 100. *)
Definition world_creator_numeric : world :=
  mk_world ∅
    {[ ("u1", "custom") := ({[ "creator_override_daily" := VInt 0;
                               "user_defined_limit_monthly" := VInt 50 ]} : doc) ]}
    ∅ (free_tier 100 100).

(** No stored usage; the unlimited override; the tier default is 0. *)
Definition world_creator_unlimited : world :=
  mk_world ∅
    {[ ("u1", "custom") := ({[ "creator_override_unlimited" := VBool true;
                               "user_defined_limit_monthly" := VInt 0 ]} : doc) ]}
    ∅ (free_tier 0 0).

(** Global usage at 10% of both caps, while the free tier still carries the
    adjustments of an earlier, busier pass. *)
Definition world_10_percent : world :=
  mk_world {[ ("u1", "weather") := mk_usage 10 10 "2025-06" "2025-06-15" ]} ∅
    {[ "weather" := ({[ "global_monthly_cap" := VInt 100;
                        "global_daily_cap" := VInt 100 ]} : doc) ]}
    (Some {| limits := Some {[ "free" :=
      ({[ "monthly_calls" := VInt 100; "daily_calls" := VInt 100;
          "dynamic_monthly_adjustment" := VInt (-25);
          "dynamic_daily_adjustment" := VInt (-20) ]} : doc);
       "pro" := ({[ "monthly_calls" := VInt (-1); "daily_calls" := VInt 500 ]} : doc) ]} |}).

(** Raising the free tier's monthly limit to 200, merging resp. replacing. *)
Definition raise_free_monthly (replace : option bool) : ApiCallLimitUpdate.t :=
  {| ApiCallLimitUpdate.tier := "free";
     ApiCallLimitUpdate.limits := {[ "monthly_calls" := 200 ]};
     ApiCallLimitUpdate.replace_all_limits := replace |}.

(** A tool metered as ["weather"] that reads nothing and answers with the
    [user_token] it was handed. *)
Definition token_tool : tool_func pyval :=
  {| tool_api_id := "weather"; is_python_interpreter := false;
     tool_call := λ _ kw, mret (match kw !! "user_token" with
                                | Some (AVal v) => v
                                | _ => VNone
                                end) |}.

(** Global usage at 95% of both caps; the pro tier's monthly limit was
    stored as text. *)
Definition world_text_limit : world :=
  mk_world {[ ("u1", "weather") := mk_usage 95 95 "2025-06" "2025-06-15" ]} ∅
    {[ "weather" := ({[ "global_monthly_cap" := VInt 100;
                        "global_daily_cap" := VInt 100 ]} : doc) ]}
    (Some {| limits := Some {[ "free" :=
      ({[ "monthly_calls" := VInt 100; "daily_calls" := VInt 100 ]} : doc);
       "pro" := ({[ "monthly_calls" := VStr "1000" ]} : doc) ]} |}).

(** ** Period reconciliation *)

Lemma py_eq_str (v : pyval) (s : string) :
  py_eq v (VStr s) = bool_decide (v = VStr s).
Proof. unfold py_eq. destruct (as_int v); reflexivity. Qed.

Lemma marker_test (d : doc) (marker current : string) :
  py_ne (dict_get d marker VNone) (VStr current) = marker_stale d marker current.
Proof.
  unfold py_ne, marker_stale, dict_get. rewrite py_eq_str. f_equal.
  destruct (d !! marker) as [v|]; apply bool_decide_ext; split; congruence.
Qed.

Lemma reset_runs (d : doc) (w : world) :
  _reset_usage_if_needed d w =
    (Ok (let d1 := if marker_stale d "last_reset_month" (clock_month w)
                   then <["last_reset_month" := VStr (clock_month w)]>
                          (<["monthly_usage" := VInt 0]> d)
                   else d in
         if marker_stale d1 "last_reset_day" (clock_day w)
         then <["last_reset_day" := VStr (clock_day w)]>
                (<["daily_usage" := VInt 0]> d1)
         else d1), w).
Proof.
  unfold _reset_usage_if_needed, _get_current_month_str, _get_current_day_str,
    ask, mbind, M_bind, mret, M_ret.
  by rewrite !marker_test.
Qed.

(** C5. Reconciliation always returns, leaves the world alone, and on the
    record it returns: the daily counter is zero and [last_reset_day] is the
    current day exactly when the stored [last_reset_day] differed from the
    current day, both being untouched otherwise; the same holds, independently
    of the day, for the monthly counter and [last_reset_month]. In
    particular a record last reset yesterday with [daily_usage = 7] comes
    back with [daily_usage = 0] and its monthly usage of 12 unchanged. *)
Theorem reset_usage_if_needed_spec :
  (∀ (d : doc) (w : world), ∃ d' : doc,
     _reset_usage_if_needed d w = (Ok d', w) ∧
     d' !! "daily_usage" =
       (if marker_stale d "last_reset_day" (clock_day w)
        then Some (VInt 0) else d !! "daily_usage") ∧
     d' !! "last_reset_day" =
       (if marker_stale d "last_reset_day" (clock_day w)
        then Some (VStr (clock_day w)) else d !! "last_reset_day") ∧
     d' !! "monthly_usage" =
       (if marker_stale d "last_reset_month" (clock_month w)
        then Some (VInt 0) else d !! "monthly_usage") ∧
     d' !! "last_reset_month" =
       (if marker_stale d "last_reset_month" (clock_month w)
        then Some (VStr (clock_month w)) else d !! "last_reset_month")) ∧
  fst (_reset_usage_if_needed usage_yesterday (mk_world ∅ ∅ ∅ None)) =
    Ok (mk_usage 12 0 "2025-06" "2025-06-15").
Proof.
  split; [|vm_compute; reflexivity].
  intros d w. eexists. split; [apply reset_runs|]. cbn zeta.
  assert (Hday : ∀ d1 : doc, d1 !! "last_reset_day" = d !! "last_reset_day" →
            marker_stale d1 "last_reset_day" (clock_day w) =
            marker_stale d "last_reset_day" (clock_day w)).
  { intros d1 H. unfold marker_stale. by rewrite H. }
  destruct (marker_stale d "last_reset_month" (clock_month w)) eqn:Hm.
  - rewrite Hday by by simplify_map_eq.
    destruct (marker_stale d "last_reset_day" (clock_day w)) eqn:Hd;
      by simplify_map_eq.
  - destruct (marker_stale d "last_reset_day" (clock_day w)) eqn:Hd;
      by simplify_map_eq.
Qed.

(** ** Read-only computations *)

Lemma same_docs_refl (w : world) : same_docs w w.
Proof. by repeat split. Qed.

Lemma same_docs_trans (w1 w2 w3 : world) :
  same_docs w1 w2 → same_docs w2 w3 → same_docs w1 w3.
Proof.
  unfold same_docs. intros (?&?&?&?&?) (?&?&?&?&?). repeat split; congruence.
Qed.

Lemma read_only_ret {A} (a : A) : read_only (mret a).
Proof. intros w. apply same_docs_refl. Qed.

Lemma read_only_lift {A} (r : result A) : read_only (lift r).
Proof. intros w. apply same_docs_refl. Qed.

Lemma read_only_ask {A} (f : world → A) : read_only (ask f).
Proof. intros w. apply same_docs_refl. Qed.

Lemma read_only_bind {A B} (m : M A) (f : A → M B) :
  read_only m → (∀ a, read_only (f a)) → read_only (m ≫= f).
Proof.
  intros Hm Hf w. unfold mbind, M_bind. specialize (Hm w).
  destruct (m w) as [[a|e] w1]; simpl in *; [|done].
  eapply same_docs_trans; [done|apply Hf].
Qed.

(** A store call whose operation only looks at the documents. *)
Lemma read_only_store_read {A} (f : world → A) :
  read_only (store_call (λ w, (f w, w))).
Proof.
  intros w. unfold store_call.
  destruct (faults w) as [|[msg|] rest]; by repeat split.
Qed.

Lemma read_only_get_user_data_document (uid coll id : string) :
  read_only (get_user_data_document uid coll id).
Proof. apply read_only_store_read. Qed.

Lemma read_only_get_api_limits_config : read_only get_api_limits_config.
Proof.
  apply read_only_bind; [apply read_only_store_read|].
  intros; apply read_only_ret.
Qed.

Lemma read_only_reset (d : doc) : read_only (_reset_usage_if_needed d).
Proof. intros w. rewrite reset_runs. apply same_docs_refl. Qed.

(** C10. Whatever the profile, the API, the stored documents and the
    failures of the store, [check_api_limit] leaves every stored document as
    it found it: the usage records, the user API configs, the API-limits
    document (and the global API configs and the user collection), whether
    it returns true, false, or raises. *)
Theorem check_api_limit_no_mutation (p : UserProfile) (api_id : string) (w : world) :
  let w' := snd (check_api_limit p api_id w) in
  api_usage w' = api_usage w ∧
  user_api_configs w' = user_api_configs w ∧
  api_limits w' = api_limits w ∧
  global_api_configs w' = global_api_configs w ∧
  users w' = users w.
Proof.
  assert (H : read_only (check_api_limit p api_id)).
  { unfold check_api_limit.
    apply read_only_bind.
    { case bool_decide; [apply read_only_lift|apply read_only_ret]. }
    intros [|]; [apply read_only_ret|].
    apply read_only_bind; [apply read_only_get_user_data_document|]. intros stored.
    apply read_only_bind.
    { case falsy_doc; [|apply read_only_ret].
      repeat (apply read_only_bind; [apply read_only_ask|intros ?]).
      apply read_only_ret. }
    intros usage.
    apply read_only_bind; [apply read_only_lift|intros m].
    apply read_only_bind; [apply read_only_lift|intros d].
    apply read_only_bind; [apply read_only_get_user_data_document|intros cfg].
    apply read_only_bind; [apply read_only_lift|intros [v|]];
      [apply read_only_ret|].
    apply read_only_bind; [apply read_only_lift|intros [v|]];
      [apply read_only_ret|].
    apply read_only_bind; [apply read_only_get_api_limits_config|intros l].
    apply read_only_lift. }
  destruct (H w) as (?&?&?&?&?). by repeat split.
Qed.

(** ** The usage ledger's increment *)

(** A handler that only logs turns every outcome of its body into a normal
    return. *)
Lemma try_except_logger_returns (body : M unit) (w : world) :
  fst (try_except body logger_error w) = Ok tt.
Proof.
  unfold try_except. destruct (body w) as [[[]|e] w1]; reflexivity.
Qed.

(** What a call of [increment_api_usage] does, by the head of the fault
    plan: either the read fails, or it succeeds and the first [+= 1] hits the
    coroutine object; the handler logs the exception in both cases, and line
    177 is never reached. *)
Lemma increment_runs (uid api_id : string) (w : world) :
  increment_api_usage uid api_id w =
    match faults w with
    | Some msg :: rest => (Ok tt, push_error (StoreError msg) (set_faults rest w))
    | None :: rest => (Ok tt, push_error TypeError (set_faults rest w))
    | [] => (Ok tt, push_error TypeError w)
    end.
Proof.
  unfold increment_api_usage, try_except, get_user_api_usage_document,
    get_user_data_document, store_call, mbind, M_bind.
  destruct (faults w) as [|[msg|] rest]; [| reflexivity |];
    cbn -[falsy_doc]; by case falsy_doc.
Qed.

Lemma increment_keeps_usage (uid api_id : string) (w : world) :
  api_usage (snd (increment_api_usage uid api_id w)) = api_usage w.
Proof.
  rewrite increment_runs. by destruct (faults w) as [|[msg|] rest].
Qed.

(** C8. [increment_api_usage] returns normally in every world, that is for
    every stored state and every plan of store failures; when the store read
    fails with [msg], that failure is appended to the error log and nothing
    is raised. *)
Theorem increment_api_usage_never_raises (uid api_id : string) (w : world) :
  fst (increment_api_usage uid api_id w) = Ok tt ∧
  ∀ (msg : string) (rest : list (option string)),
    increment_api_usage uid api_id (set_faults (Some msg :: rest) w) =
      (Ok tt, push_error (StoreError msg) (set_faults rest w)).
Proof.
  split; [apply try_except_logger_returns|].
  intros msg rest. by rewrite increment_runs.
Qed.

(** C7 (the code at the failing input). Two calls of [increment_api_usage],
    one after the other, leave every usage record as it was; on the record
    with [monthly_usage = 5] and [daily_usage = 2] in the current period the
    counters are still 5 and 2 afterwards, not 7 and 4, and each call has
    logged a [TypeError]. *)
Theorem increment_twice_counts_nothing :
  (∀ (uid api_id : string) (w : world),
     api_usage (snd (increment_api_usage uid api_id
                  (snd (increment_api_usage uid api_id w)))) = api_usage w) ∧
  let w2 := snd (increment_api_usage "u1" "weather"
              (snd (increment_api_usage "u1" "weather" world_no_limits))) in
  stored_counter w2 "u1" "weather" "monthly_usage" = Some (VInt 5) ∧
  stored_counter w2 "u1" "weather" "daily_usage" = Some (VInt 2) ∧
  error_log w2 = [TypeError; TypeError].
Proof.
  split; [intros; by rewrite !increment_keeps_usage|].
  vm_compute. repeat split; reflexivity.
Qed.

(** ** The quota check: stage 1 and the usage lookup *)

(** C2 (the code at the failing inputs). For every profile whose roles
    contain ["creator"], [check_api_limit] raises [AttributeError] at line
    202, before any store call, instead of returning true. *)
Theorem check_api_limit_creator_raises (p : UserProfile) (api_id : string) (w : world) :
  "creator" ∈ roles p →
  check_api_limit p api_id w = (Raise AttributeError, w).
Proof.
  intros H. unfold check_api_limit. by rewrite bool_decide_eq_true_2.
Qed.

Lemma check_api_limit_creator_raises_witness :
  "creator" ∈ roles (mk_profile "u1" "free" ["user"; "creator"]) ∧
  check_api_limit (mk_profile "u1" "free" ["user"; "creator"]) "weather"
    world_no_limits = (Raise AttributeError, world_no_limits).
Proof.
  assert (H : "creator" ∈ roles (mk_profile "u1" "free" ["user"; "creator"])).
  { simpl. apply list_elem_of_further, list_elem_of_here. }
  split; [exact H|].
  exact (check_api_limit_creator_raises _ "weather" world_no_limits H).
Defined.

Lemma bind_ok {A B} (m : M A) (f : A → M B) (w w' : world) (a : A) :
  m w = (Ok a, w') → (m ≫= f) w = f a w'.
Proof. intros H. unfold mbind, M_bind. by rewrite H. Qed.

Lemma bind_raise {A B} (m : M A) (f : A → M B) (w w' : world) (e : exn) :
  m w = (Raise e, w') → (m ≫= f) w = (Raise e, w').
Proof. intros H. unfold mbind, M_bind. by rewrite H. Qed.

Lemma store_read_ok {A} (f : world → A) (w : world) :
  faults w = [] → store_call (λ w, (f w, w)) w = (Ok (f w), w).
Proof. intros H. unfold store_call. by rewrite H. Qed.

Lemma get_usage_ok (uid api_id : string) (w : world) :
  faults w = [] →
  get_user_api_usage_document uid api_id w = (Ok (api_usage w !! (uid, api_id)), w).
Proof.
  intros H. unfold get_user_api_usage_document, get_user_data_document,
    store_call. by rewrite H.
Qed.

Lemma get_config_ok (uid api_id : string) (w : world) :
  faults w = [] →
  get_user_api_config_document uid api_id w =
    (Ok (user_api_configs w !! (uid, api_id)), w).
Proof.
  intros H. unfold get_user_api_config_document, get_user_data_document,
    store_call. by rewrite H.
Qed.

Lemma get_api_limits_config_ok (w : world) :
  faults w = [] → get_api_limits_config w = (Ok (limits_config w), w).
Proof.
  intros H. unfold get_api_limits_config.
  erewrite bind_ok by apply (store_read_ok api_limits w H). reflexivity.
Qed.

Lemma fresh_usage_counters (month day : string) :
  let fresh : doc :=
    <["last_reset_day" := VStr day]>
      (<["last_reset_month" := VStr month]>
      (<["daily_usage" := VInt 0]>
      (<["monthly_usage" := VInt 0]> ∅))) in
  dict_get fresh "monthly_usage" (VInt 0) = VInt 0 ∧
  dict_get fresh "daily_usage" (VInt 0) = VInt 0.
Proof. unfold dict_get. by simplify_map_eq. Qed.

Ltac step_with lem := erewrite bind_ok by (apply lem; assumption); cbv beta iota.
Ltac step := erewrite bind_ok by reflexivity; cbv beta iota.

(** Every non-creator call that finds a stored, non-empty usage record ends
    at line 218: [user_api_usage] is the coroutine object of line 216, and
    [.get] on it raises. The later stages are not reached. *)
Lemma check_api_limit_stored_usage_raises (p : UserProfile) (api_id : string)
    (w : world) (d : doc) :
  "creator" ∉ roles p → faults w = [] →
  api_usage w !! (user_id p, api_id) = Some d → d ≠ ∅ →
  check_api_limit p api_id w = (Raise AttributeError, w).
Proof.
  intros Hc Hf Hd Hne. unfold check_api_limit.
  rewrite bool_decide_eq_false_2 by done. step.
  step_with get_usage_ok. rewrite Hd. unfold falsy_doc.
  rewrite bool_decide_eq_false_2 by done. step.
  by apply bind_raise.
Qed.

(** Without a stored record the usage is 0 and 0, and the verdict is that of
    stages 2 to 4 on these values. *)
Lemma check_api_limit_without_record (p : UserProfile) (api_id : string) (w : world) :
  "creator" ∉ roles p → faults w = [] →
  falsy_doc (api_usage w !! (user_id p, api_id)) = true →
  check_api_limit p api_id w =
    (decide_with_usage (user_api_configs w !! (user_id p, api_id))
       (limits_config w) (tier p) (VInt 0) (VInt 0), w).
Proof.
  intros Hc Hf Hd. unfold check_api_limit.
  rewrite bool_decide_eq_false_2 by done. step.
  step_with get_usage_ok. rewrite Hd. do 3 step.
  step_with get_config_ok. unfold decide_with_usage.
  destruct (fresh_usage_counters (clock_month w) (clock_day w)) as [-> ->].
  destruct (creator_override_stage (user_api_configs w !! (user_id p, api_id))
              (VInt 0) (VInt 0)) as [[v|]|e] eqn:H2.
  - step. reflexivity.
  - step.
    destruct (user_defined_stage (user_api_configs w !! (user_id p, api_id))
                (VInt 0) (VInt 0)) as [[v|]|e] eqn:H3.
    + step. reflexivity.
    + step. step_with get_api_limits_config_ok. reflexivity.
    + by apply bind_raise.
  - by apply bind_raise.
Qed.

(** ** The quota check: stages 2 to 4 *)

Lemma config_get_some (cfg : doc) (key : string) (dflt : pyval) :
  config_get (Some cfg) key dflt = dict_get cfg key dflt.
Proof.
  unfold config_get, falsy_doc. case_bool_decide as H; [|done].
  subst cfg. unfold dict_get. by rewrite lookup_empty.
Qed.

Lemma config_get_none (key : string) (dflt : pyval) :
  config_get None key dflt = dflt.
Proof. reflexivity. Qed.

(** Stage 2, first half: the unlimited override allows, whatever the usage. *)
Lemma creator_override_stage_unlimited (cfg : doc) (usage_m usage_d : pyval) :
  cfg !! "creator_override_unlimited" = Some (VBool true) →
  creator_override_stage (Some cfg) usage_m usage_d = Ok (Some true).
Proof.
  intros H. unfold creator_override_stage. rewrite !config_get_some.
  unfold dict_get at 1. by rewrite H.
Qed.

Lemma limit_hit_int (u : Z) (o : option Z) :
  limit_hit (VInt u) (limit_of o) = Ok (reached u o).
Proof. by destruct o. Qed.

(** The numeric block of stages 2 and 3: with neither threshold set it falls
    through; with at least one set it decides, denying exactly when the
    usage reaches a set threshold. *)
Lemma numeric_limits_stage_int (om od : option Z) (m d : Z) :
  numeric_limits_stage (limit_of om) (limit_of od) (VInt m) (VInt d) =
    Ok (match om, od with
        | None, None => None
        | _, _ => Some (negb (reached m om || reached d od))
        end).
Proof.
  unfold numeric_limits_stage. rewrite !limit_hit_int.
  destruct om as [a|], od as [b|]; cbn [limit_of reached]; try reflexivity.
  - unfold mbind, result_bind.
    destruct (a <=? m); [reflexivity|]. by destruct (b <=? d).
  - by destruct (a <=? m).
  - by destruct (b <=? d).
Qed.

(** Stage 2, second half: without the unlimited override and with a numeric
    override on at least one period, the stage decides by the set thresholds
    alone and never hands over. *)
Lemma creator_override_stage_numeric (cfg : doc) (om od : option Z) (m d : Z) :
  truthy (dict_get cfg "creator_override_unlimited" (VBool false)) = false →
  dict_get cfg "creator_override_monthly" VNone = limit_of om →
  dict_get cfg "creator_override_daily" VNone = limit_of od →
  is_Some om ∨ is_Some od →
  creator_override_stage (Some cfg) (VInt m) (VInt d) =
    Ok (Some (negb (reached m om || reached d od))).
Proof.
  intros Hu Hm Hd Hs. unfold creator_override_stage.
  rewrite !config_get_some, Hu, Hm, Hd, numeric_limits_stage_int.
  destruct om, od; try reflexivity. destruct Hs as [[? [=]]|[? [=]]].
Qed.

Lemma effective_limit_int (s a : Z) :
  effective_limit (VInt s) (VInt (s + a)) = Ok (VInt (effective s a)).
Proof.
  unfold effective_limit, effective, py_ne, py_eq, py_max0, py_gt, py_le, py_ge.
  cbn. destruct (s =? -1); cbn; [done|].
  destruct (s + a <=? 0) eqn:H; cbn; do 2 f_equal; lia.
Qed.

Lemma tier_limit_hit_int (u l : Z) :
  tier_limit_hit (VInt u) (VInt l) = Ok (exceeds u l).
Proof.
  unfold tier_limit_hit, exceeds, py_ne, py_eq, py_ge. cbn.
  by destruct (l =? -1).
Qed.

(** Stage 4 on integer limits, adjustments and usage: the effective limits
    are [effective], and the stage denies exactly when the usage reaches the
    monthly or the daily effective limit. *)
Lemma tier_default_stage_int (cfg : gmap string doc) (user_tier : string)
    (sm sd am ad m d : Z) :
  let tl := default ∅ (cfg !! user_tier) in
  dict_get tl "monthly_calls" (VInt (-1)) = VInt sm →
  dict_get tl "daily_calls" (VInt (-1)) = VInt sd →
  dict_get tl "dynamic_monthly_adjustment" (VInt 0) = VInt am →
  dict_get tl "dynamic_daily_adjustment" (VInt 0) = VInt ad →
  tier_default_stage cfg user_tier (VInt m) (VInt d) =
    Ok (negb (exceeds m (effective sm am) || exceeds d (effective sd ad))).
Proof.
  intros tl H1 H2 H3 H4. unfold tier_default_stage. fold tl.
  rewrite H1, H2, H3, H4. cbn -[effective_limit tier_limit_hit].
  rewrite !effective_limit_int. cbn -[tier_limit_hit].
  rewrite !tier_limit_hit_int. cbn.
  destruct (exceeds m _); [done|]. cbn. by destruct (exceeds d _).
Qed.

(** Stage 4 for a tier without an entry: both limits default to -1 and the
    stage allows every usage. *)
Lemma tier_default_stage_missing_tier (cfg : gmap string doc) (user_tier : string)
    (m d : Z) :
  cfg !! user_tier = None →
  tier_default_stage cfg user_tier (VInt m) (VInt d) = Ok true.
Proof.
  intros H.
  rewrite (tier_default_stage_int cfg user_tier (-1) (-1) 0 0);
    rewrite ?H; done.
Qed.

Lemma mk_usage_non_empty (m d : Z) (month day : string) : mk_usage m d month day ≠ ∅.
Proof. unfold mk_usage. apply insert_non_empty. Qed.

(** C3 (the code at the failing input). With the tier default
    [monthly_calls = 100] and [dynamic_monthly_adjustment = -30], a call for
    a user whose stored record has any monthly usage (71 and 69 included)
    raises [AttributeError] at line 218 instead of answering; stage 4 itself,
    handed the usage 71 resp. 69, would deny resp. allow. *)
Theorem check_api_limit_adjusted_tier_raises :
  let p := mk_profile "u1" "free" ["user"] in
  (∀ m : Z, check_api_limit p "weather" (world_adjusted m) =
              (Raise AttributeError, world_adjusted m)) ∧
  tier_default_stage (limits_config (world_adjusted 71)) "free"
    (VInt 71) (VInt 0) = Ok false ∧
  tier_default_stage (limits_config (world_adjusted 69)) "free"
    (VInt 69) (VInt 0) = Ok true.
Proof.
  split; [|vm_compute; split; reflexivity].
  intros m.
  apply (check_api_limit_stored_usage_raises _ _ _
           (mk_usage m 0 "2025-06" "2025-06-15")).
  - cbn. by intros H%list_elem_of_singleton.
  - reflexivity.
  - cbn. apply lookup_singleton_eq.
  - apply mk_usage_non_empty.
Qed.

(** C4 (the code at the failing input). A user with
    [creator_override_unlimited = true], a tier default of 0 and a stored
    usage record: the call raises [AttributeError] at line 218 instead of
    returning true; stage 2 itself, handed the usage, would allow. *)
Theorem check_api_limit_override_unlimited_raises :
  check_api_limit (mk_profile "u1" "free" ["user"]) "weather"
    world_override_unlimited = (Raise AttributeError, world_override_unlimited) ∧
  creator_override_stage
    (user_api_configs world_override_unlimited !! ("u1", "weather"))
    (VInt 3) (VInt 1) = Ok (Some true).
Proof. split; vm_compute; reflexivity. Qed.

(** C6 (the code at the failing input). No user API config and no
    API-limits document, but a stored usage record with 5 monthly and 2 daily
    calls: the call raises [AttributeError] at line 218 instead of returning
    true; stage 4 itself, handed the usage, would allow. *)
Theorem check_api_limit_missing_limits_raises :
  check_api_limit (mk_profile "u1" "free" ["user"]) "weather" world_no_limits =
    (Raise AttributeError, world_no_limits) ∧
  tier_default_stage (limits_config world_no_limits) "free" (VInt 5) (VInt 2) =
    Ok true.
Proof. split; vm_compute; reflexivity. Qed.

(** ** The aggregator's totals *)

Lemma get_user_data_usage_ok (uid api_id : string) (w : world) :
  faults w = [] →
  get_user_data_document uid "api_usage" api_id w =
    (Ok (api_usage w !! (uid, api_id)), w).
Proof. apply get_usage_ok. Qed.

Lemma py_add_counter (total : Z) (d : doc) (counter : string) :
  counter_numeric d counter = true →
  py_add (VInt total) (dict_get d counter (VInt 0)) =
    Ok (VInt (total + counter_value d counter)).
Proof.
  unfold counter_numeric, counter_value, dict_get, py_add.
  destruct (d !! counter) as [v|]; [|by intros _].
  intros [n Hn]%bool_decide_eq_true. cbn. by rewrite Hn.
Qed.

Lemma marker_stale_empty (marker current : string) :
  marker_stale ∅ marker current = true.
Proof. unfold marker_stale. by rewrite lookup_empty. Qed.

Lemma marker_test_eq (d : doc) (marker current : string) :
  py_eq (dict_get d marker VNone) (VStr current) =
    negb (marker_stale d marker current).
Proof.
  rewrite <- marker_test. unfold py_ne. by rewrite negb_involutive.
Qed.

Ltac same_total := f_equal; f_equal; f_equal; lia.

(** The loop of [_get_total_default_api_usage], once for each period: with a
    store that answers, it adds each user's contribution to the running
    total and leaves the world alone. *)
Lemma sum_usage_loop_month (api_id : string) (w : world) (ids : list string) (total : Z) :
  faults w = [] → usage_numeric api_id w →
  sum_usage_loop api_id "month" (clock_month w) ids (VInt total) w =
    (Ok (VInt (total +
       foldr (λ uid acc, user_contribution w api_id "last_reset_month"
                           "monthly_usage" (clock_month w) uid + acc) 0 ids)), w).
Proof.
  intros Hf Hn. revert total.
  induction ids as [|uid ids IH]; intros total; cbn [sum_usage_loop foldr].
  - rewrite Z.add_0_r. reflexivity.
  - step_with get_user_data_usage_ok. unfold user_contribution at 1.
    destruct (api_usage w !! (uid, api_id)) as [d|] eqn:Hd.
    + unfold falsy_doc. case_bool_decide as He.
      * step. rewrite IH. subst d. rewrite marker_stale_empty. same_total.
      * cbn [default from_option id String.eqb Ascii.eqb Bool.eqb andb].
        rewrite marker_test_eq.
        destruct (marker_stale d "last_reset_month" (clock_month w)); cbn [negb].
        -- step. rewrite IH. same_total.
        -- erewrite bind_ok.
           2:{ unfold lift. rewrite py_add_counter by (by apply (Hn uid d)).
               reflexivity. }
           rewrite IH. same_total.
    + step. rewrite IH. same_total.
Qed.

Lemma sum_usage_loop_day (api_id : string) (w : world) (ids : list string) (total : Z) :
  faults w = [] → usage_numeric api_id w →
  sum_usage_loop api_id "day" (clock_day w) ids (VInt total) w =
    (Ok (VInt (total +
       foldr (λ uid acc, user_contribution w api_id "last_reset_day"
                           "daily_usage" (clock_day w) uid + acc) 0 ids)), w).
Proof.
  intros Hf Hn. revert total.
  induction ids as [|uid ids IH]; intros total; cbn [sum_usage_loop foldr].
  - rewrite Z.add_0_r. reflexivity.
  - step_with get_user_data_usage_ok. unfold user_contribution at 1.
    destruct (api_usage w !! (uid, api_id)) as [d|] eqn:Hd.
    + unfold falsy_doc. case_bool_decide as He.
      * step. rewrite IH. subst d. rewrite marker_stale_empty. same_total.
      * cbn [default from_option id String.eqb Ascii.eqb Bool.eqb andb].
        rewrite marker_test_eq.
        destruct (marker_stale d "last_reset_day" (clock_day w)); cbn [negb].
        -- step. rewrite IH. same_total.
        -- erewrite bind_ok.
           2:{ unfold lift. rewrite py_add_counter by (by apply (Hn uid d)).
               reflexivity. }
           rewrite IH. same_total.
    + step. rewrite IH. same_total.
Qed.

(** C9. With a store that answers and numeric counters, the total for the
    month is the sum over all users of the stored [monthly_usage] of the
    records whose [last_reset_month] is the current month, and the total for
    the day is the sum of the stored [daily_usage] of the records whose
    [last_reset_day] is the current day; a record with a stale marker (or no
    record) adds zero. *)
Theorem total_default_api_usage_spec (api_id : string) (w : world) :
  faults w = [] → usage_numeric api_id w →
  _get_total_default_api_usage api_id "month" w =
    (Ok (VInt (total_consumption w api_id "last_reset_month" "monthly_usage"
                 (clock_month w))), w) ∧
  _get_total_default_api_usage api_id "day" w =
    (Ok (VInt (total_consumption w api_id "last_reset_day" "daily_usage"
                 (clock_day w))), w).
Proof.
  intros Hf Hn. unfold _get_total_default_api_usage, total_consumption.
  split.
  - cbn [String.eqb Ascii.eqb Bool.eqb]. step.
    erewrite bind_ok by apply (store_read_ok users w Hf).
    by rewrite sum_usage_loop_month.
  - cbn [String.eqb Ascii.eqb Bool.eqb]. step.
    erewrite bind_ok by apply (store_read_ok users w Hf).
    by rewrite sum_usage_loop_day.
Qed.

Lemma total_default_api_usage_spec_witness :
  faults world_three_users = [] ∧
  _get_total_default_api_usage "weather" "month" world_three_users =
    (Ok (VInt 40), world_three_users) ∧
  _get_total_default_api_usage "weather" "day" world_three_users =
    (Ok (VInt 4), world_three_users).
Proof.
  split; [reflexivity|].
  apply (total_default_api_usage_spec "weather" world_three_users).
  - reflexivity.
  - intros uid d H. simpl in H.
    apply lookup_insert_Some in H as [[_ <-]|[_ H]].
    + split; vm_compute; reflexivity.
    + apply lookup_singleton_Some in H as [_ <-].
      split; vm_compute; reflexivity.
Defined.

(** ** The dynamic adjustment rules *)

Lemma scaled_delta_int (n : Z) (num : Z) (den : positive) :
  scaled_delta (VInt n) (num # den) = Ok (VInt (Z.quot (n * num) (Zpos den) - n)).
Proof. reflexivity. Qed.

(** Once the monthly utilisation is at least 80% (90% and more included),
    the loop stops at its first rule: the factor is 0.75. *)
Lemma first_rule_monthly_from_80 (pct : Q) (n : Z) :
  (inject_Z 80 <= pct)%Q → n ≠ -1 →
  first_rule_adjustment adjustment_rules_monthly pct (VInt n) =
    Ok (VInt (Z.quot (n * 75) 100 - n)).
Proof.
  intros Hp Hn. cbn [first_rule_adjustment adjustment_rules_monthly threshold factor].
  apply Qle_bool_iff in Hp. rewrite Hp.
  unfold py_ne, py_eq. cbn [as_int].
  by rewrite (proj2 (Z.eqb_neq n (-1)) Hn).
Qed.

(** Once the daily utilisation is at least 70%, the factor is 0.80. *)
Lemma first_rule_daily_from_70 (pct : Q) (n : Z) :
  (inject_Z 70 <= pct)%Q → n ≠ -1 →
  first_rule_adjustment adjustment_rules_daily pct (VInt n) =
    Ok (VInt (Z.quot (n * 80) 100 - n)).
Proof.
  intros Hp Hn. cbn [first_rule_adjustment adjustment_rules_daily threshold factor].
  apply Qle_bool_iff in Hp. rewrite Hp.
  unfold py_ne, py_eq. cbn [as_int].
  by rewrite (proj2 (Z.eqb_neq n (-1)) Hn).
Qed.


(** At 85% of both caps the pass stores the 0.75 and 0.80 factors. *)
Lemma adjust_at_85_percent :
  let w' := snd (_adjust_tier_limits_dynamically "weather" world_85_percent) in
  stored_adjustment w' "free" "dynamic_monthly_adjustment" = Some (VInt (-25)) ∧
  stored_adjustment w' "free" "dynamic_daily_adjustment" = Some (VInt (-20)).
Proof. split; vm_compute; reflexivity. Qed.

(** C1 (the code at the failing input). Global usage is at 95% of the monthly
    and of the daily cap and the free tier allows 100 calls per month and per
    day. The pass returns and stores the adjustments -25 and -20, the
    factors 0.75 and 0.80 of the lowest thresholds, where the highest
    thresholds met call for -50 (factor 0.50) and -60 (factor 0.40). *)
Theorem adjust_at_95_percent_applies_lowest_rule :
  let run := _adjust_tier_limits_dynamically "weather" world_95_percent in
  fst run = Ok tt ∧
  stored_adjustment (snd run) "free" "dynamic_monthly_adjustment" = Some (VInt (-25)) ∧
  stored_adjustment (snd run) "free" "dynamic_daily_adjustment" = Some (VInt (-20)).
Proof. repeat split; vm_compute; reflexivity. Qed.

(** ** Further properties of the reconciliation *)

Lemma reset_markers_current (d : doc) (w : world) :
  ∃ d' : doc, _reset_usage_if_needed d w = (Ok d', w) ∧
    marker_stale d' "last_reset_month" (clock_month w) = false ∧
    marker_stale d' "last_reset_day" (clock_day w) = false.
Proof.
  eexists. split; [apply reset_runs|]. cbn zeta.
  destruct (marker_stale d "last_reset_month" (clock_month w)) eqn:Hm.
  - match goal with |- context [marker_stale ?x "last_reset_day" ?c] =>
      destruct (marker_stale x "last_reset_day" c) eqn:Hd end.
    + unfold marker_stale. split; rewrite bool_decide_eq_true_2; by simplify_map_eq.
    + split; [|done]. unfold marker_stale.
      rewrite bool_decide_eq_true_2; by simplify_map_eq.
  - destruct (marker_stale d "last_reset_day" (clock_day w)) eqn:Hd.
    + split.
      * unfold marker_stale in *. apply negb_false_iff in Hm.
        apply bool_decide_eq_true in Hm.
        rewrite bool_decide_eq_true_2; by simplify_map_eq.
      * unfold marker_stale. rewrite bool_decide_eq_true_2; by simplify_map_eq.
    + done.
Qed.

(** X1. Reconciliation is idempotent: the record it returns is already
    current, so reconciling it again (at the same clock) returns it
    unchanged. *)
Theorem reset_usage_idempotent (d : doc) (w : world) :
  ∃ d' : doc, _reset_usage_if_needed d w = (Ok d', w) ∧
              _reset_usage_if_needed d' w = (Ok d', w).
Proof.
  destruct (reset_markers_current d w) as (d' & Hrun & Hm & Hd).
  exists d'. split; [done|]. rewrite reset_runs. cbn zeta.
  by rewrite Hm, Hd.
Qed.

(** X2. Reconciliation touches the two counters and the two markers only:
    every other field of the record ([id], [created_at], ...) is returned
    as stored. *)
Theorem reset_usage_frame (d : doc) (w : world) (k : string) :
  k ≠ "monthly_usage" → k ≠ "daily_usage" →
  k ≠ "last_reset_month" → k ≠ "last_reset_day" →
  ∃ d' : doc, _reset_usage_if_needed d w = (Ok d', w) ∧ d' !! k = d !! k.
Proof.
  intros. eexists. split; [apply reset_runs|]. cbn zeta.
  destruct (marker_stale d "last_reset_month" (clock_month w));
    match goal with |- context [marker_stale ?x "last_reset_day" ?c] =>
      destruct (marker_stale x "last_reset_day" c) end;
    by simplify_map_eq.
Qed.

Lemma reset_usage_frame_witness :
  ∃ d' : doc,
    _reset_usage_if_needed (<["id" := VStr "weather"]> usage_yesterday)
      (mk_world ∅ ∅ ∅ None) = (Ok d', mk_world ∅ ∅ ∅ None) ∧
    d' !! "id" = (<["id" := VStr "weather"]> usage_yesterday) !! "id".
Proof.
  apply (reset_usage_frame (<["id" := VStr "weather"]> usage_yesterday)
           (mk_world ∅ ∅ ∅ None) "id"); discriminate.
Defined.

(** ** The quota check for a user without a stored usage record *)

Lemma numeric_limits_stage_unset (m d : pyval) :
  numeric_limits_stage VNone VNone m d = Ok None.
Proof. reflexivity. Qed.

Lemma stages_without_config (cfg : option doc) (m d : pyval) :
  falsy_doc cfg = true →
  creator_override_stage cfg m d = Ok None ∧ user_defined_stage cfg m d = Ok None.
Proof.
  intros H. unfold creator_override_stage, user_defined_stage, config_get.
  by rewrite H.
Qed.

Lemma exceeds_zero_effective (s a : Z) :
  exceeds 0 (effective s a) = (effective s a =? 0).
Proof.
  unfold exceeds, effective. destruct (s =? -1) eqn:E; [done|].
  destruct (Z.max_spec 0 (s + a)) as [[? ->]|[? ->]].
  - destruct (s + a =? -1) eqn:E1; [lia|]. cbn.
    destruct (s + a <=? 0) eqn:E2, (s + a =? 0) eqn:E3; lia.
  - reflexivity.
Qed.

(** X3. A user who is not a creator, has no stored usage record and no API
    config of their own is judged by the tier default alone: with integer
    limits and adjustments the check denies exactly when the effective
    monthly or daily limit, [max(0, static + adjustment)] or -1, is 0. *)
Theorem check_fresh_user_tier_default (p : UserProfile) (api_id : string)
    (w : world) (sm sd am ad : Z) :
  let tl := default ∅ (limits_config w !! tier p) in
  "creator" ∉ roles p → faults w = [] →
  falsy_doc (api_usage w !! (user_id p, api_id)) = true →
  falsy_doc (user_api_configs w !! (user_id p, api_id)) = true →
  dict_get tl "monthly_calls" (VInt (-1)) = VInt sm →
  dict_get tl "daily_calls" (VInt (-1)) = VInt sd →
  dict_get tl "dynamic_monthly_adjustment" (VInt 0) = VInt am →
  dict_get tl "dynamic_daily_adjustment" (VInt 0) = VInt ad →
  check_api_limit p api_id w =
    (Ok (negb ((effective sm am =? 0) || (effective sd ad =? 0))), w).
Proof.
  intros tl Hc Hf Hu Hcfg H1 H2 H3 H4.
  rewrite check_api_limit_without_record by done.
  unfold decide_with_usage.
  destruct (stages_without_config _ (VInt 0) (VInt 0) Hcfg) as [-> ->].
  cbn [mbind result_bind].
  rewrite (tier_default_stage_int _ _ sm sd am ad) by done.
  by rewrite !exceeds_zero_effective.
Qed.

Lemma check_fresh_user_tier_default_witness :
  check_api_limit (mk_profile "u2" "free" ["user"]) "weather" (world_adjusted 71) =
    (Ok true, world_adjusted 71).
Proof.
  apply (check_fresh_user_tier_default (mk_profile "u2" "free" ["user"])
           "weather" (world_adjusted 71) 100 (-1) (-30) 0);
    try reflexivity.
  cbn. by intros H%list_elem_of_singleton.
Defined.

(** X4. Limits the user set on their own API are authoritative: for a
    non-creator without a stored usage record whose config carries no
    creator override but a [user_defined_limit_monthly] or
    [user_defined_limit_daily], the check allows unless one of the set
    limits is at most 0, and the tier limits are not consulted. *)
Theorem check_user_defined_limit_decides (p : UserProfile) (api_id : string)
    (w : world) (cfg : doc) (um ud : option Z) :
  "creator" ∉ roles p → faults w = [] →
  falsy_doc (api_usage w !! (user_id p, api_id)) = true →
  user_api_configs w !! (user_id p, api_id) = Some cfg →
  truthy (dict_get cfg "creator_override_unlimited" (VBool false)) = false →
  dict_get cfg "creator_override_monthly" VNone = VNone →
  dict_get cfg "creator_override_daily" VNone = VNone →
  dict_get cfg "user_defined_limit_monthly" VNone = limit_of um →
  dict_get cfg "user_defined_limit_daily" VNone = limit_of ud →
  is_Some um ∨ is_Some ud →
  check_api_limit p api_id w = (Ok (negb (reached 0 um || reached 0 ud)), w).
Proof.
  intros Hc Hf Hu Hcfg H0 H1 H2 H3 H4 Hs.
  rewrite check_api_limit_without_record by done.
  rewrite Hcfg. unfold decide_with_usage, creator_override_stage, user_defined_stage.
  rewrite !config_get_some, H0, H1, H2, H3, H4, numeric_limits_stage_unset.
  cbn [mbind result_bind]. rewrite numeric_limits_stage_int.
  destruct um, ud; try reflexivity. destruct Hs as [[? [=]]|[? [=]]].
Qed.

(** X5. A numeric override set by the creator for this user is
    authoritative: for a non-creator without a stored usage record whose
    config carries [creator_override_monthly] or [creator_override_daily]
    (and no unlimited override), the check allows unless a set override is at
    most 0; neither the user-defined limits of the same config nor the tier
    limits are consulted. *)
Theorem check_creator_numeric_override_decides (p : UserProfile) (api_id : string)
    (w : world) (cfg : doc) (om od : option Z) :
  "creator" ∉ roles p → faults w = [] →
  falsy_doc (api_usage w !! (user_id p, api_id)) = true →
  user_api_configs w !! (user_id p, api_id) = Some cfg →
  truthy (dict_get cfg "creator_override_unlimited" (VBool false)) = false →
  dict_get cfg "creator_override_monthly" VNone = limit_of om →
  dict_get cfg "creator_override_daily" VNone = limit_of od →
  is_Some om ∨ is_Some od →
  check_api_limit p api_id w = (Ok (negb (reached 0 om || reached 0 od)), w).
Proof.
  intros Hc Hf Hu Hcfg H0 H1 H2 Hs.
  rewrite check_api_limit_without_record by done.
  rewrite Hcfg. unfold decide_with_usage.
  by rewrite (creator_override_stage_numeric cfg om od 0 0).
Qed.

(** X6. The unlimited override granted by the creator allows a non-creator
    without a stored usage record whatever the user-defined limits and the
    tier limits say. *)
Theorem check_creator_unlimited_override_allows (p : UserProfile) (api_id : string)
    (w : world) (cfg : doc) :
  "creator" ∉ roles p → faults w = [] →
  falsy_doc (api_usage w !! (user_id p, api_id)) = true →
  user_api_configs w !! (user_id p, api_id) = Some cfg →
  cfg !! "creator_override_unlimited" = Some (VBool true) →
  check_api_limit p api_id w = (Ok true, w).
Proof.
  intros Hc Hf Hu Hcfg H0.
  rewrite check_api_limit_without_record by done.
  rewrite Hcfg. unfold decide_with_usage.
  by rewrite creator_override_stage_unlimited.
Qed.

Lemma not_creator_plain_user : "creator" ∉ roles (mk_profile "u1" "free" ["user"]).
Proof. cbn. by intros H%list_elem_of_singleton. Qed.

Lemma check_user_defined_limit_decides_witness :
  check_api_limit (mk_profile "u1" "free" ["user"]) "custom" world_user_limit =
    (Ok true, world_user_limit).
Proof.
  apply (check_user_defined_limit_decides (mk_profile "u1" "free" ["user"])
           "custom" world_user_limit
           {[ "user_defined_limit_monthly" := VInt 50 ]} (Some 50) None);
    try reflexivity.
  - apply not_creator_plain_user.
  - left. by eexists.
Defined.

Lemma check_creator_numeric_override_decides_witness :
  check_api_limit (mk_profile "u1" "free" ["user"]) "custom" world_creator_numeric =
    (Ok false, world_creator_numeric).
Proof.
  apply (check_creator_numeric_override_decides (mk_profile "u1" "free" ["user"])
           "custom" world_creator_numeric
           {[ "creator_override_daily" := VInt 0;
              "user_defined_limit_monthly" := VInt 50 ]} None (Some 0));
    try reflexivity.
  - apply not_creator_plain_user.
  - right. by eexists.
Defined.

Lemma check_creator_unlimited_override_allows_witness :
  check_api_limit (mk_profile "u1" "free" ["user"]) "custom" world_creator_unlimited =
    (Ok true, world_creator_unlimited).
Proof.
  apply (check_creator_unlimited_override_allows (mk_profile "u1" "free" ["user"])
           "custom" world_creator_unlimited
           {[ "creator_override_unlimited" := VBool true;
              "user_defined_limit_monthly" := VInt 0 ]});
    try reflexivity.
  apply not_creator_plain_user.
Defined.

(** ** Metering and the verdict *)

Lemma creator_check_stops (p : UserProfile) (api_id : string) (w : world) :
  "creator" ∈ roles p → check_api_limit p api_id w = (Raise AttributeError, w).
Proof.
  intros H. unfold check_api_limit. by rewrite bool_decide_eq_true_2.
Qed.

(** With a store that answers, the outcome of the check is a function of the
    stored documents. *)
Lemma check_api_limit_by_docs (p : UserProfile) (api_id : string) (w1 w2 : world) :
  faults w1 = [] → faults w2 = [] → same_docs w1 w2 →
  fst (check_api_limit p api_id w1) = fst (check_api_limit p api_id w2).
Proof.
  intros Hf1 Hf2 (_ & Hu & Hc & _ & Hl).
  destruct (decide ("creator" ∈ roles p)) as [Hcr|Hcr].
  { by rewrite !creator_check_stops. }
  destruct (falsy_doc (api_usage w1 !! (user_id p, api_id))) eqn:Hfd.
  - rewrite (check_api_limit_without_record p api_id w1) by done.
    rewrite (check_api_limit_without_record p api_id w2) by (by rewrite ?Hu).
    cbn. unfold limits_config. by rewrite Hc, Hl.
  - destruct (api_usage w1 !! (user_id p, api_id)) as [d|] eqn:Hd; [|done].
    cbn in Hfd. apply bool_decide_eq_false in Hfd.
    rewrite (check_api_limit_stored_usage_raises p api_id w1 d) by done.
    by rewrite (check_api_limit_stored_usage_raises p api_id w2 d)
      by (by rewrite ?Hu).
Qed.

Lemma increments_keep_docs (uid api_id : string) (n : nat) (w : world) :
  faults w = [] →
  let w' := Nat.iter n (λ w, snd (increment_api_usage uid api_id w)) w in
  faults w' = [] ∧ same_docs w w'.
Proof.
  intros Hf. induction n as [|n IH]; cbn zeta.
  - split; [done|apply same_docs_refl].
  - cbn zeta in IH. destruct IH as [IHf (?&?&?&?&?)].
    rewrite Nat.iter_succ, increment_runs, IHf. cbn. by repeat split.
Qed.

(** X7. Metering does not reach the quota check: with a store that answers,
    the check gives the same answer after any number of calls of
    [increment_api_usage] (for any user and API) as it gave before them. *)
Theorem check_unchanged_by_increments (p : UserProfile) (api_id uid api_id' : string)
    (n : nat) (w : world) :
  faults w = [] →
  fst (check_api_limit p api_id
         (Nat.iter n (λ w, snd (increment_api_usage uid api_id' w)) w)) =
  fst (check_api_limit p api_id w).
Proof.
  intros Hf. destruct (increments_keep_docs uid api_id' n w Hf) as [Hf' Hd].
  symmetry. by apply check_api_limit_by_docs.
Qed.

Lemma check_unchanged_by_increments_witness :
  fst (check_api_limit (mk_profile "u2" "free" ["user"]) "weather"
         (Nat.iter 3 (λ w, snd (increment_api_usage "u2" "weather" w))
            (world_adjusted 71))) =
  fst (check_api_limit (mk_profile "u2" "free" ["user"]) "weather"
         (world_adjusted 71)).
Proof.
  apply (check_unchanged_by_increments (mk_profile "u2" "free" ["user"])
           "weather" "u2" "weather" 3 (world_adjusted 71)).
  reflexivity.
Defined.

(** ** Further properties of the totals *)

Lemma sum_usage_loop_other_period (api_id period current : string)
    (ids : list string) (total : pyval) (w : world) :
  String.eqb period "month" = false → String.eqb period "day" = false →
  faults w = [] →
  sum_usage_loop api_id period current ids total w = (Ok total, w).
Proof.
  intros Hm Hd Hf. induction ids as [|uid ids IH]; [done|].
  cbn [sum_usage_loop]. step_with get_user_data_usage_ok.
  rewrite Hm, Hd. cbn [andb].
  destruct (falsy_doc _); step; apply IH.
Qed.

(** X8. The total is only defined for the periods ["month"] and ["day"]:
    for any other period string the aggregation, with a store that answers,
    returns 0 whatever the usage records hold. *)
Theorem total_of_unknown_period_is_zero (api_id period : string) (w : world) :
  period ≠ "month" → period ≠ "day" → faults w = [] →
  _get_total_default_api_usage api_id period w = (Ok (VInt 0), w).
Proof.
  intros Hm Hd Hf. apply String.eqb_neq in Hm, Hd.
  unfold _get_total_default_api_usage. rewrite Hm. step.
  erewrite bind_ok by apply (store_read_ok users w Hf).
  by apply sum_usage_loop_other_period.
Qed.

Lemma total_of_unknown_period_is_zero_witness :
  _get_total_default_api_usage "weather" "week" world_three_users =
    (Ok (VInt 0), world_three_users).
Proof.
  apply (total_of_unknown_period_is_zero "weather" "week" world_three_users);
    [discriminate | discriminate | reflexivity].
Defined.

Lemma reconciled_monthly (w : world) (d : doc) :
  counter_value (reconciled w d) "monthly_usage" =
    if marker_stale d "last_reset_month" (clock_month w) then 0
    else counter_value d "monthly_usage".
Proof.
  unfold reconciled. rewrite reset_runs. cbn zeta. unfold counter_value.
  destruct (marker_stale d "last_reset_month" (clock_month w));
    match goal with |- context [marker_stale ?x "last_reset_day" ?c] =>
      destruct (marker_stale x "last_reset_day" c) end;
    by simplify_map_eq.
Qed.

Lemma reconciled_daily (w : world) (d : doc) :
  counter_value (reconciled w d) "daily_usage" =
    if marker_stale d "last_reset_day" (clock_day w) then 0
    else counter_value d "daily_usage".
Proof.
  unfold reconciled. rewrite reset_runs. cbn zeta. unfold counter_value.
  assert (Hday : ∀ d1 : doc, d1 !! "last_reset_day" = d !! "last_reset_day" →
            marker_stale d1 "last_reset_day" (clock_day w) =
            marker_stale d "last_reset_day" (clock_day w)).
  { intros d1 H. unfold marker_stale. by rewrite H. }
  destruct (marker_stale d "last_reset_month" (clock_month w)).
  - rewrite Hday by by simplify_map_eq.
    destruct (marker_stale d "last_reset_day" (clock_day w)); by simplify_map_eq.
  - destruct (marker_stale d "last_reset_day" (clock_day w)); by simplify_map_eq.
Qed.

Lemma contributions_reconciled (w : world) (api_id : string) (ids : list string) :
  foldr (λ uid acc, user_contribution w api_id "last_reset_month"
                      "monthly_usage" (clock_month w) uid + acc) 0 ids =
  foldr (λ uid acc, match api_usage w !! (uid, api_id) with
                    | Some d => counter_value (reconciled w d) "monthly_usage"
                    | None => 0
                    end + acc) 0 ids ∧
  foldr (λ uid acc, user_contribution w api_id "last_reset_day"
                      "daily_usage" (clock_day w) uid + acc) 0 ids =
  foldr (λ uid acc, match api_usage w !! (uid, api_id) with
                    | Some d => counter_value (reconciled w d) "daily_usage"
                    | None => 0
                    end + acc) 0 ids.
Proof.
  induction ids as [|uid ids [IHm IHd]]; [done|]. cbn [foldr].
  rewrite IHm, IHd. unfold user_contribution.
  destruct (api_usage w !! (uid, api_id)); [|done].
  by rewrite reconciled_monthly, reconciled_daily.
Qed.

(** X9. The aggregator counts what the ledger would count: with a store
    that answers and numeric counters, the monthly (daily) total equals the
    sum over all users of the monthly (daily) counter of their record after
    [_reset_usage_if_needed], although the aggregator never calls it. *)
Theorem total_agrees_with_reconciliation (api_id : string) (w : world) :
  faults w = [] → usage_numeric api_id w →
  _get_total_default_api_usage api_id "month" w =
    (Ok (VInt (reconciled_total w api_id "monthly_usage")), w) ∧
  _get_total_default_api_usage api_id "day" w =
    (Ok (VInt (reconciled_total w api_id "daily_usage")), w).
Proof.
  intros Hf Hn. unfold _get_total_default_api_usage, reconciled_total.
  destruct (contributions_reconciled w api_id (users w)) as [<- <-].
  split.
  - cbn [String.eqb Ascii.eqb Bool.eqb]. step.
    erewrite bind_ok by apply (store_read_ok users w Hf).
    by rewrite sum_usage_loop_month.
  - cbn [String.eqb Ascii.eqb Bool.eqb]. step.
    erewrite bind_ok by apply (store_read_ok users w Hf).
    by rewrite sum_usage_loop_day.
Qed.

Lemma usage_numeric_three_users : usage_numeric "weather" world_three_users.
Proof.
  intros uid d H. simpl in H.
  apply lookup_insert_Some in H as [[_ <-]|[_ H]].
  - split; vm_compute; reflexivity.
  - apply lookup_singleton_Some in H as [_ <-].
    split; vm_compute; reflexivity.
Qed.

Lemma total_agrees_with_reconciliation_witness :
  _get_total_default_api_usage "weather" "month" world_three_users =
    (Ok (VInt 40), world_three_users) ∧
  _get_total_default_api_usage "weather" "day" world_three_users =
    (Ok (VInt 4), world_three_users).
Proof.
  apply (total_agrees_with_reconciliation "weather" world_three_users).
  - reflexivity.
  - apply usage_numeric_three_users.
Defined.

(** ** The dynamic adjustment pass *)

Lemma total_runs (api_id : string) (w : world) :
  faults w = [] → usage_numeric api_id w →
  _get_total_default_api_usage api_id "month" w =
    (Ok (VInt (total_consumption w api_id "last_reset_month" "monthly_usage"
                 (clock_month w))), w) ∧
  _get_total_default_api_usage api_id "day" w =
    (Ok (VInt (total_consumption w api_id "last_reset_day" "daily_usage"
                 (clock_day w))), w).
Proof.
  intros Hf Hn. unfold _get_total_default_api_usage, total_consumption.
  split.
  - cbn [String.eqb Ascii.eqb Bool.eqb]. step.
    erewrite bind_ok by apply (store_read_ok users w Hf).
    by rewrite sum_usage_loop_month.
  - cbn [String.eqb Ascii.eqb Bool.eqb]. step.
    erewrite bind_ok by apply (store_read_ok users w Hf).
    by rewrite sum_usage_loop_day.
Qed.

Lemma py_le_zero (v : pyval) (c : Z) :
  as_int v = Some c → py_le v (VInt 0) = Ok (c <=? 0).
Proof. intros H. unfold py_le, py_ge. cbn [as_int]. by rewrite H. Qed.

Lemma usage_percentage_int (t c : Z) (cap : pyval) :
  as_int cap = Some c → usage_percentage (VInt t) cap = Ok (pct_of t c).
Proof.
  intros H. unfold usage_percentage, py_gt. rewrite (py_le_zero cap c H).
  cbn [fmap result_fmap mbind result_bind as_int]. rewrite H. unfold pct_of.
  replace (0 <? c) with (negb (c <=? 0)) by lia.
  by destruct (c <=? 0).
Qed.

(** A pass that gets to its loop: it reads, adjusts every tier and writes the
    limits back, or raises out of the loop without writing. *)
Lemma adjust_pass_runs (api_id : string) (w : world) (cap_m cap_d : Z) :
  pass_ready api_id w cap_m cap_d →
  _adjust_tier_limits_dynamically api_id w =
    match adjust_all_tiers (monthly_pct api_id w cap_m) (daily_pct api_id w cap_d)
            (limits_config w) with
    | Ok tiers' => (Ok tt, set_api_limits (Some {| limits := Some tiers' |}) w)
    | Raise e => (Raise e, w)
    end.
Proof.
  intros (Hf & Hn & (cfg & Hcfg & Hne & Hm & Hd) & Hpos).
  destruct (total_runs api_id w Hf Hn) as [Htm Htd].
  unfold _adjust_tier_limits_dynamically.
  erewrite bind_ok by apply (store_read_ok _ w Hf). cbv beta.
  rewrite Hcfg. unfold falsy_doc. rewrite bool_decide_eq_false_2 by done.
  cbn [default from_option id].
  erewrite bind_ok by (unfold lift; rewrite (py_le_zero _ _ Hm); reflexivity).
  cbv beta.
  erewrite (bind_ok _ _ w w false).
  2:{ destruct (cap_m <=? 0) eqn:E; [|reflexivity].
      unfold lift. rewrite (py_le_zero _ _ Hd).
      replace (cap_d <=? 0) with false by lia. reflexivity. }
  cbv beta iota.
  erewrite bind_ok by apply Htm. erewrite bind_ok by apply Htd. cbv beta.
  erewrite bind_ok
    by (unfold lift; rewrite (usage_percentage_int _ _ _ Hm); reflexivity).
  erewrite bind_ok
    by (unfold lift; rewrite (usage_percentage_int _ _ _ Hd); reflexivity).
  cbv beta.
  erewrite bind_ok by (by apply get_api_limits_config_ok). cbv beta.
  fold (monthly_pct api_id w cap_m). fold (daily_pct api_id w cap_d).
  destruct (adjust_all_tiers _ _ _) as [tiers'|e].
  - erewrite bind_ok by reflexivity.
    unfold set_global_config_api_limits, store_call. by rewrite Hf.
  - by apply bind_raise.
Qed.

(** The loop over the tiers, tier by tier: when it returns, every tier of the
    input was adjusted without an exception and holds its adjusted entry, and
    no tier was added. *)
Lemma adjust_all_tiers_lookup (pm pd : Q) (tiers tiers' : gmap string doc) :
  adjust_all_tiers pm pd tiers = Ok tiers' →
  ∀ name, match tiers !! name with
          | Some l => ∃ l', adjust_tier pm pd l = Ok l' ∧ tiers' !! name = Some l'
          | None => tiers' !! name = None
          end.
Proof.
  unfold adjust_all_tiers. revert tiers'.
  apply (map_fold_weak_ind (λ r m, ∀ tiers', r = Ok tiers' →
    ∀ name, match m !! name with
            | Some l => ∃ l', adjust_tier pm pd l = Ok l' ∧ tiers' !! name = Some l'
            | None => tiers' !! name = None
            end)).
  - intros tiers' [= <-] name. by rewrite !lookup_empty.
  - intros i x m r Hi IH tiers' Hr name.
    destruct r as [acc|e]; [|done]. cbn [mbind result_bind] in Hr.
    destruct (adjust_tier pm pd x) as [x'|e] eqn:Hx; [|done].
    cbn [mbind result_bind] in Hr. injection Hr as <-.
    destruct (decide (i = name)) as [->|Hne].
    + rewrite !lookup_insert_eq. by exists x'.
    + rewrite !lookup_insert_ne by done. by apply IH.
Qed.

(** When every tier adjusts without an exception, so does the loop. *)
Lemma adjust_all_tiers_returns (pm pd : Q) (tiers : gmap string doc) :
  (∀ name l, tiers !! name = Some l → ∃ l', adjust_tier pm pd l = Ok l') →
  ∃ tiers', adjust_all_tiers pm pd tiers = Ok tiers'.
Proof.
  unfold adjust_all_tiers.
  apply (map_fold_weak_ind (λ r m,
    (∀ name l, m !! name = Some l → ∃ l', adjust_tier pm pd l = Ok l') →
    ∃ tiers', r = Ok tiers')).
  - intros _. by eexists.
  - intros i x m r Hi IH Hall.
    destruct IH as [acc ->].
    { intros name l Hl. apply (Hall name). rewrite lookup_insert_ne; [done|].
      intros ->. congruence. }
    destruct (Hall i x) as [x' Hx]; [apply lookup_insert_eq|].
    cbn [mbind result_bind]. rewrite Hx. by eexists.
Qed.

(** The adjusted entry of one tier: the stored entry with its two
    adjustment fields overwritten. *)
Lemma adjust_tier_shape (pm pd : Q) (l l' : doc) :
  adjust_tier pm pd l = Ok l' →
  ∃ δm δd,
    first_rule_adjustment adjustment_rules_monthly pm
      (dict_get l "monthly_calls" (VInt (-1))) = Ok δm ∧
    first_rule_adjustment adjustment_rules_daily pd
      (dict_get l "daily_calls" (VInt (-1))) = Ok δd ∧
    l' = <["dynamic_daily_adjustment" := δd]>
           (<["dynamic_monthly_adjustment" := δm]> l).
Proof.
  unfold adjust_tier. intros H.
  destruct (first_rule_adjustment adjustment_rules_monthly _ _) as [δm|e]; [|done].
  cbn [mbind result_bind] in H.
  destruct (first_rule_adjustment adjustment_rules_daily _ _) as [δd|e]; [|done].
  cbn [mbind result_bind] in H. injection H as <-. by exists δm, δd.
Qed.

Lemma adjust_tier_fields (pm pd : Q) (l l' : doc) :
  adjust_tier pm pd l = Ok l' →
  (∃ δ, first_rule_adjustment adjustment_rules_monthly pm
          (dict_get l "monthly_calls" (VInt (-1))) = Ok δ ∧
        l' !! "dynamic_monthly_adjustment" = Some δ) ∧
  (∃ δ, first_rule_adjustment adjustment_rules_daily pd
          (dict_get l "daily_calls" (VInt (-1))) = Ok δ ∧
        l' !! "dynamic_daily_adjustment" = Some δ) ∧
  (∀ field, field ≠ "dynamic_monthly_adjustment" →
            field ≠ "dynamic_daily_adjustment" → l' !! field = l !! field).
Proof.
  intros (δm & δd & Hm & Hd & ->)%adjust_tier_shape. repeat split.
  - exists δm. split; [done|]. by simplify_map_eq.
  - exists δd. split; [done|]. by simplify_map_eq.
  - intros field ? ?. by simplify_map_eq.
Qed.



Lemma scaled_delta_bounds (n num : Z) :
  0 ≤ n → 0 ≤ num ≤ 100 →
  ∃ δ, scaled_delta (VInt n) (num # 100) = Ok (VInt δ) ∧ - n ≤ δ ≤ 0.
Proof.
  intros Hn Hnum. eexists. split; [apply scaled_delta_int|].
  rewrite Z.quot_div_nonneg by lia.
  assert (0 ≤ n * num / 100) by (apply Z.div_pos; lia).
  assert (n * num / 100 ≤ n) by (apply Z.div_le_upper_bound; nia).
  lia.
Qed.

(** On a non-negative static limit the stored delta lies between [-n] and 0,
    at every utilisation and for both rule tables. *)
Lemma first_rule_bounds (rules : list rule) (pct : Q) (n : Z) :
  rules = adjustment_rules_monthly ∨ rules = adjustment_rules_daily →
  0 ≤ n →
  ∃ δ, first_rule_adjustment rules pct (VInt n) = Ok (VInt δ) ∧ - n ≤ δ ≤ 0.
Proof.
  intros Hr Hn.
  assert (Hne : py_ne (VInt n) (VInt (-1)) = true).
  { unfold py_ne, py_eq. cbn [as_int]. apply negb_true_iff. lia. }
  assert (H0 : ∃ δ, Ok (VInt 0) = Ok (VInt δ) ∧ - n ≤ δ ≤ 0).
  { exists 0. split; [reflexivity|lia]. }
  destruct Hr as [-> | ->];
    cbn [first_rule_adjustment adjustment_rules_monthly adjustment_rules_daily
         threshold factor]; rewrite ?Hne;
    repeat match goal with
           | |- context [Qle_bool ?a ?b] => destruct (Qle_bool a b)
           end;
    rewrite ?Hne;
    first [exact H0 | apply scaled_delta_bounds; lia].
Qed.

(** X10. A pass for an API without a global config document, or whose two
    caps are both at most 0, returns without computing any total and without
    writing: the world is left exactly as it was. *)
Theorem adjust_pass_skipped (api_id : string) (w : world) :
  faults w = [] →
  falsy_doc (global_api_configs w !! api_id) = true ∨
  (∃ (cfg : doc) (cap_m cap_d : Z),
     global_api_configs w !! api_id = Some cfg ∧
     as_int (dict_get cfg "global_monthly_cap" (VInt 100000)) = Some cap_m ∧
     as_int (dict_get cfg "global_daily_cap" (VInt 5000)) = Some cap_d ∧
     cap_m ≤ 0 ∧ cap_d ≤ 0) →
  _adjust_tier_limits_dynamically api_id w = (Ok tt, w).
Proof.
  intros Hf Hskip. unfold _adjust_tier_limits_dynamically.
  erewrite bind_ok by apply (store_read_ok _ w Hf). cbv beta.
  destruct (falsy_doc (global_api_configs w !! api_id)) eqn:Hfd; [done|].
  destruct Hskip as [?|(cfg & cm & cd & Hcfg & Hm & Hd & Hcm & Hcd)]; [done|].
  rewrite Hcfg. cbn [default from_option id].
  erewrite bind_ok by (unfold lift; rewrite (py_le_zero _ _ Hm); reflexivity).
  cbv beta. replace (cm <=? 0) with true by lia.
  erewrite bind_ok by (unfold lift; rewrite (py_le_zero _ _ Hd); reflexivity).
  cbv beta. by replace (cd <=? 0) with true by lia.
Qed.

Lemma adjust_pass_skipped_witness :
  _adjust_tier_limits_dynamically "weather" world_no_limits = (Ok tt, world_no_limits).
Proof.
  apply (adjust_pass_skipped "weather" world_no_limits); [reflexivity|].
  left. reflexivity.
Defined.

Lemma pass_result (api_id : string) (w w' : world) (cap_m cap_d : Z) :
  pass_ready api_id w cap_m cap_d →
  _adjust_tier_limits_dynamically api_id w = (Ok tt, w') →
  ∃ tiers', adjust_all_tiers (monthly_pct api_id w cap_m) (daily_pct api_id w cap_d)
              (limits_config w) = Ok tiers' ∧
            w' = set_api_limits (Some {| limits := Some tiers' |}) w.
Proof.
  intros Hr Hrun. rewrite (adjust_pass_runs _ _ _ _ Hr) in Hrun.
  destruct (adjust_all_tiers _ _ _) as [tiers'|e]; [|done].
  exists tiers'. split; [done|]. congruence.
Qed.

(** X11. A pass that runs to its end writes the two adjustment fields of the
    existing tiers and nothing else: the usage records, the user and global
    API configs and the user collection are unchanged, no tier is added or
    removed, and every other field of every tier (the static [monthly_calls]
    and [daily_calls] included) keeps its value. *)
Theorem adjust_pass_writes_adjustments_only (api_id : string) (w w' : world)
    (cap_m cap_d : Z) :
  pass_ready api_id w cap_m cap_d →
  _adjust_tier_limits_dynamically api_id w = (Ok tt, w') →
  api_usage w' = api_usage w ∧
  user_api_configs w' = user_api_configs w ∧
  global_api_configs w' = global_api_configs w ∧
  users w' = users w ∧
  (∀ name, is_Some (limits_config w' !! name) ↔ is_Some (limits_config w !! name)) ∧
  (∀ name field,
     field ≠ "dynamic_monthly_adjustment" → field ≠ "dynamic_daily_adjustment" →
     tier_field w' name field = tier_field w name field).
Proof.
  intros Hr Hrun.
  destruct (pass_result _ _ _ _ _ Hr Hrun) as (tiers' & Hall & ->).
  repeat split; try reflexivity.
  - intros [l' Hl']. cbn in Hl'.
    pose proof (adjust_all_tiers_lookup _ _ _ _ Hall name) as H.
    destruct (limits_config w !! name); [by eexists|congruence].
  - intros [l Hl]. cbn.
    pose proof (adjust_all_tiers_lookup _ _ _ _ Hall name) as H.
    rewrite Hl in H. destruct H as (l' & _ & ->). by eexists.
  - intros name field Hm Hd. unfold tier_field. cbn.
    pose proof (adjust_all_tiers_lookup _ _ _ _ Hall name) as H.
    destruct (limits_config w !! name) as [l|].
    + destruct H as (l' & Hl' & ->). cbn.
      by apply (adjust_tier_fields _ _ _ _ Hl').
    + by rewrite H.
Qed.


(** X13. Throttling only lowers a limit and never below zero: for a tier
    whose static limit [n] of a period is a non-negative integer, a pass that
    runs to its end stores an integer adjustment between [-n] and 0, so that
    the effective limit the quota check derives from it is [n + adjustment]
    and lies between 0 and [n]. *)
Theorem adjust_pass_adjustment_bounds (api_id : string) (w w' : world)
    (cap_m cap_d : Z) (static dynamic name : string) (l : doc) (n : Z) :
  pass_ready api_id w cap_m cap_d →
  _adjust_tier_limits_dynamically api_id w = (Ok tt, w') →
  period_fields static dynamic →
  limits_config w !! name = Some l →
  dict_get l static (VInt (-1)) = VInt n → 0 ≤ n →
  ∃ δ, tier_field w' name dynamic = Some (VInt δ) ∧
       - n ≤ δ ≤ 0 ∧ effective n δ = n + δ ∧ 0 ≤ effective n δ ≤ n.
Proof.
  intros Hr Hrun Hp Hl Hs Hn.
  destruct (pass_result _ _ _ _ _ Hr Hrun) as (tiers' & Hall & ->).
  pose proof (adjust_all_tiers_lookup _ _ _ _ Hall name) as H.
  rewrite Hl in H. destruct H as (l' & Hl' & Hn').
  unfold tier_field. cbn. rewrite Hn'. cbn.
  destruct (adjust_tier_fields _ _ _ _ Hl') as ((δm & Hm & Hlm) & (δd & Hd & Hld) & _).
  assert (Heff : ∀ δ, - n ≤ δ ≤ 0 →
            effective n δ = n + δ ∧ 0 ≤ effective n δ ≤ n).
  { intros δ Hδ. unfold effective. replace (n =? -1) with false by lia. lia. }
  destruct Hp as [[-> ->]|[-> ->]].
  - rewrite Hs in Hm.
    destruct (first_rule_bounds adjustment_rules_monthly
                (monthly_pct api_id w cap_m) n) as (δ & Hδ & Hb); [by left|done|].
    exists δ. rewrite Hlm. split; [congruence|]. split; [done|by apply Heff].
  - rewrite Hs in Hd.
    destruct (first_rule_bounds adjustment_rules_daily
                (daily_pct api_id w cap_d) n) as (δ & Hδ & Hb); [by right|done|].
    exists δ. rewrite Hld. split; [congruence|]. split; [done|by apply Heff].
Qed.


(** X15. Passes do not accumulate: the adjustments are computed from the
    static limits, so running a second pass right after one that ran to its
    end (same usage, same caps) changes nothing. *)
Theorem adjust_pass_idempotent (api_id : string) (w w' : world) (cap_m cap_d : Z) :
  pass_ready api_id w cap_m cap_d →
  _adjust_tier_limits_dynamically api_id w = (Ok tt, w') →
  _adjust_tier_limits_dynamically api_id w' = (Ok tt, w').
Proof.
  intros Hr Hrun.
  destruct (pass_result _ _ _ _ _ Hr Hrun) as (tiers' & Hall & ->).
  set (w' := set_api_limits (Some {| limits := Some tiers' |}) w).
  assert (Hr' : pass_ready api_id w' cap_m cap_d) by exact Hr.
  rewrite (adjust_pass_runs _ _ _ _ Hr').
  change (monthly_pct api_id w' cap_m) with (monthly_pct api_id w cap_m).
  change (daily_pct api_id w' cap_d) with (daily_pct api_id w cap_d).
  change (limits_config w') with tiers'.
  assert (Hfix : ∀ name l', tiers' !! name = Some l' →
            adjust_tier (monthly_pct api_id w cap_m) (daily_pct api_id w cap_d) l' =
              Ok l').
  { intros name l' Hl'.
    pose proof (adjust_all_tiers_lookup _ _ _ _ Hall name) as H.
    destruct (limits_config w !! name) as [l|]; [|congruence].
    destruct H as (l'' & Hadj & Hn). assert (l'' = l') as -> by congruence.
    destruct (adjust_tier_shape _ _ _ _ Hadj) as (δm & δd & Hm & Hd & ->).
    unfold adjust_tier, dict_get in *.
    rewrite !lookup_insert_ne by done. rewrite Hm, Hd. cbn [mbind result_bind].
    f_equal. apply map_eq. intros k.
    destruct (decide (k = "dynamic_daily_adjustment")) as [->|];
      [by simplify_map_eq|].
    destruct (decide (k = "dynamic_monthly_adjustment")) as [->|];
      by simplify_map_eq. }
  destruct (adjust_all_tiers_returns (monthly_pct api_id w cap_m)
              (daily_pct api_id w cap_d) tiers') as [tiers'' Hall'].
  { intros name l' Hl'. exists l'. by apply (Hfix name). }
  rewrite Hall'. assert (tiers'' = tiers') as ->; [|reflexivity].
  apply map_eq. intros name.
  pose proof (adjust_all_tiers_lookup _ _ _ _ Hall' name) as H.
  destruct (tiers' !! name) as [l'|] eqn:Hl'; [|done].
  destruct H as (l'' & Hadj & ->). rewrite (Hfix name l' Hl') in Hadj. congruence.
Qed.

(** *** The passes on concrete worlds *)

Lemma usage_numeric_single (api_id uid : string) (m d : Z) (month day : string)
    (w : world) :
  api_usage w = {[ (uid, api_id) := mk_usage m d month day ]} →
  usage_numeric api_id w.
Proof.
  intros Hw uid' rec H. rewrite Hw in H.
  apply lookup_singleton_Some in H as [_ <-].
  split; unfold counter_numeric, mk_usage; by simplify_map_eq.
Qed.

Lemma pass_ready_95 : pass_ready "weather" world_95_percent 100 100.
Proof.
  split; [reflexivity|]. split; [by eapply usage_numeric_single|].
  split; [|lia]. eexists. split; [apply lookup_singleton_eq|].
  split; [apply insert_non_empty|]. split; reflexivity.
Qed.


Lemma pass_runs_95 :
  _adjust_tier_limits_dynamically "weather" world_95_percent =
    (Ok tt, snd (_adjust_tier_limits_dynamically "weather" world_95_percent)).
Proof. vm_compute; reflexivity. Qed.


Lemma adjust_pass_writes_adjustments_only_witness :
  let w' := snd (_adjust_tier_limits_dynamically "weather" world_95_percent) in
  tier_field w' "free" "monthly_calls" =
    tier_field world_95_percent "free" "monthly_calls" ∧
  api_usage w' = api_usage world_95_percent.
Proof.
  destruct (adjust_pass_writes_adjustments_only "weather" world_95_percent
              (snd (_adjust_tier_limits_dynamically "weather" world_95_percent))
              100 100 pass_ready_95 pass_runs_95) as (Hu & _ & _ & _ & _ & Hf).
  split; [apply Hf; discriminate | exact Hu].
Defined.


Lemma adjust_pass_adjustment_bounds_witness :
  ∃ δ, tier_field (snd (_adjust_tier_limits_dynamically "weather" world_95_percent))
         "free" "dynamic_daily_adjustment" = Some (VInt δ) ∧
       - 100 ≤ δ ≤ 0 ∧ effective 100 δ = 100 + δ ∧ 0 ≤ effective 100 δ ≤ 100.
Proof.
  apply (adjust_pass_adjustment_bounds "weather" world_95_percent _ 100 100
           "daily_calls" "dynamic_daily_adjustment" "free"
           {[ "monthly_calls" := VInt 100; "daily_calls" := VInt 100 ]}
           100 pass_ready_95 pass_runs_95).
  - right. split; reflexivity.
  - reflexivity.
  - reflexivity.
  - lia.
Defined.


Lemma adjust_pass_idempotent_witness :
  let w' := snd (_adjust_tier_limits_dynamically "weather" world_95_percent) in
  _adjust_tier_limits_dynamically "weather" w' = (Ok tt, w').
Proof.
  exact (adjust_pass_idempotent "weather" world_95_percent _ 100 100
           pass_ready_95 pass_runs_95).
Defined.

(** ** The monitoring task *)

Lemma monitor_loop_returns (global_apis : list doc) (w : world) :
  fst (monitor_loop global_apis w) = Ok tt.
Proof.
  revert w. induction global_apis as [|api rest IH]; intros w; [done|].
  cbn [monitor_loop]. unfold mbind, M_bind at 1.
  match goal with |- context [(if ?c then ?a else ?b) w] =>
    assert (H : fst ((if c then a else b) w) = Ok tt)
  end.
  { destruct (truthy _); [apply try_except_logger_returns|done]. }
  match type of H with fst ?x = _ => destruct x as [[[]|e] w1] end;
    [apply IH|done].
Qed.

(** X16. Only the initial listing of the global API configs can make the
    monitoring task raise: when that store call fails the failure reaches the
    caller, and otherwise the task returns normally, whatever the documents
    hold and whichever later store calls fail during the passes. *)
Theorem monitor_task_raises_only_on_listing (w : world) :
  fst (_monitor_global_api_usage_task w) =
    match faults w with
    | Some msg :: _ => Raise (StoreError msg)
    | _ => Ok tt
    end.
Proof.
  unfold _monitor_global_api_usage_task, get_global_api_configs, mbind, M_bind,
    store_call.
  destruct (faults w) as [|[msg|] rest]; [|done|]; apply monitor_loop_returns.
Qed.

(** ** Updating the limits *)

(** X17. An update that names no tier is rejected with status 400 and
    nothing is written. *)
Theorem update_api_limits_requires_tier (u : ApiCallLimitUpdate.t) (w : world) :
  ApiCallLimitUpdate.tier u = EmptyString → faults w = [] →
  update_api_limits u w =
    (Ok (HTTPException 400
           (DetailText "Tier must be specified for API limit update.")), w).
Proof.
  intros Ht Hf. unfold update_api_limits.
  erewrite bind_ok by apply (store_read_ok api_limits w Hf).
  cbv beta zeta. by rewrite Ht.
Qed.

Lemma update_api_limits_requires_tier_witness :
  update_api_limits
    {| ApiCallLimitUpdate.tier := EmptyString;
       ApiCallLimitUpdate.limits := {[ "monthly_calls" := 5 ]};
       ApiCallLimitUpdate.replace_all_limits := None |} world_10_percent =
    (Ok (HTTPException 400
           (DetailText "Tier must be specified for API limit update.")),
     world_10_percent).
Proof.
  apply update_api_limits_requires_tier; reflexivity.
Defined.

Lemma update_api_limits_runs (u : ApiCallLimitUpdate.t) (w : world) :
  ApiCallLimitUpdate.tier u ≠ EmptyString → faults w = [] →
  let name := ApiCallLimitUpdate.tier u in
  let new_limits : doc := VInt <$> ApiCallLimitUpdate.limits u in
  let updated :=
    if default false (ApiCallLimitUpdate.replace_all_limits u)
    then <[name := new_limits]> (limits_config w)
    else <[name := new_limits ∪ default ∅ (limits_config w !! name)]>
           (limits_config w) in
  update_api_limits u w =
    (Ok (Returned updated),
     set_api_limits (Some {| limits := Some updated |}) w).
Proof.
  intros Ht Hf. cbv zeta. unfold update_api_limits.
  erewrite bind_ok by apply (store_read_ok api_limits w Hf).
  cbv beta zeta. apply String.eqb_neq in Ht. rewrite Ht. cbn [negb].
  fold (limits_config w).
  erewrite bind_ok; [reflexivity|].
  unfold set_global_config_api_limits, store_call. by rewrite Hf.
Qed.

(** X18. A merging update (the default) round-trips through
    [get_api_limits_config]: what the update returns is what the next read
    returns; in the named tier each field the update names holds the new
    value and every other field, the dynamic adjustments included, keeps its
    value; the other tiers are untouched. *)
Theorem update_api_limits_merge (u : ApiCallLimitUpdate.t) (w : world) :
  ApiCallLimitUpdate.tier u ≠ EmptyString → faults w = [] →
  default false (ApiCallLimitUpdate.replace_all_limits u) = false →
  ∃ updated w',
    update_api_limits u w = (Ok (Returned updated), w') ∧
    get_api_limits_config w' = (Ok updated, w') ∧
    (∀ field,
       tier_field w' (ApiCallLimitUpdate.tier u) field =
         match ApiCallLimitUpdate.limits u !! field with
         | Some n => Some (VInt n)
         | None => tier_field w (ApiCallLimitUpdate.tier u) field
         end) ∧
    (∀ name, name ≠ ApiCallLimitUpdate.tier u →
       limits_config w' !! name = limits_config w !! name).
Proof.
  intros Ht Hf Hm. eexists _, _. split.
  { rewrite (update_api_limits_runs u w Ht Hf). rewrite Hm. reflexivity. }
  split; [by apply get_api_limits_config_ok|]. split.
  - intros field. unfold tier_field. cbn. rewrite lookup_insert_eq. cbn.
    rewrite lookup_union, lookup_fmap.
    destruct (ApiCallLimitUpdate.limits u !! field) as [n|]; cbn.
    + by destruct (default ∅ _ !! field).
    + destruct (limits_config w !! ApiCallLimitUpdate.tier u) as [l|]; cbn.
      * by destruct (l !! field).
      * by rewrite lookup_empty.
  - intros name Hn. cbn. by rewrite lookup_insert_ne.
Qed.

(** X19. A replacing update makes the named tier's entry exactly the new
    limits: fields the update does not name, the dynamic adjustments
    included, are gone afterwards; the other tiers are untouched. *)
Theorem update_api_limits_replace (u : ApiCallLimitUpdate.t) (w : world) :
  ApiCallLimitUpdate.tier u ≠ EmptyString → faults w = [] →
  ApiCallLimitUpdate.replace_all_limits u = Some true →
  ∃ updated w',
    update_api_limits u w = (Ok (Returned updated), w') ∧
    get_api_limits_config w' = (Ok updated, w') ∧
    (∀ field,
       tier_field w' (ApiCallLimitUpdate.tier u) field =
         VInt <$> ApiCallLimitUpdate.limits u !! field) ∧
    (∀ name, name ≠ ApiCallLimitUpdate.tier u →
       limits_config w' !! name = limits_config w !! name).
Proof.
  intros Ht Hf Hm. eexists _, _. split.
  { rewrite (update_api_limits_runs u w Ht Hf). rewrite Hm. reflexivity. }
  split; [by apply get_api_limits_config_ok|]. split.
  - intros field. unfold tier_field. cbn. rewrite lookup_insert_eq. cbn.
    by rewrite lookup_fmap.
  - intros name Hn. cbn. by rewrite lookup_insert_ne.
Qed.

Lemma update_api_limits_merge_witness :
  ∃ updated w',
    update_api_limits (raise_free_monthly None) world_10_percent =
      (Ok (Returned updated), w') ∧
    tier_field w' "free" "monthly_calls" = Some (VInt 200) ∧
    tier_field w' "free" "dynamic_monthly_adjustment" = Some (VInt (-25)).
Proof.
  destruct (update_api_limits_merge (raise_free_monthly None) world_10_percent)
    as (updated & w' & Hrun & _ & Hfield & _);
    [discriminate | reflexivity | reflexivity |].
  exists updated, w'. split; [exact Hrun|].
  split; rewrite Hfield; reflexivity.
Defined.

Lemma update_api_limits_replace_witness :
  ∃ updated w',
    update_api_limits (raise_free_monthly (Some true)) world_10_percent =
      (Ok (Returned updated), w') ∧
    tier_field w' "free" "monthly_calls" = Some (VInt 200) ∧
    tier_field w' "free" "dynamic_monthly_adjustment" = None.
Proof.
  destruct (update_api_limits_replace (raise_free_monthly (Some true))
              world_10_percent)
    as (updated & w' & Hrun & _ & Hfield & _);
    [discriminate | reflexivity | reflexivity |].
  exists updated, w'. split; [exact Hrun|].
  split; rewrite Hfield; reflexivity.
Defined.

(** ** The metered tool call *)


Lemma read_only_increment (uid api_id : string) :
  read_only (increment_api_usage uid api_id).
Proof.
  intros w. rewrite increment_runs.
  destruct (faults w) as [|[msg|] rest]; by repeat split.
Qed.

Lemma increment_returns (uid api_id : string) (w : world) :
  ∃ w', increment_api_usage uid api_id w = (Ok tt, w') ∧ same_docs w w'.
Proof.
  eexists. split; [|apply (read_only_increment uid api_id w)].
  rewrite increment_runs. by destruct (faults w) as [|[msg|] rest].
Qed.

(** X20. The executor gates the tool: once [check_api_limit] has answered,
    a denial ends the call with status 403 in the world the check left, so
    the tool has not run and nothing was metered; after an allowing answer
    the tool is called with the caller's keyword arguments, to which the
    user's id is added as [user_token] unless the caller passed one; a tool
    that raises is not metered and its exception reaches the caller; a tool
    that returns has its result returned, whatever happens to the usage
    increment that follows. *)
Theorem wrapped_tool_executor_gate {Out} (p : UserProfile) (tool : tool_func Out)
    (args : list tool_arg) (kwargs : gmap string tool_arg) (w w1 : world) (b : bool) :
  check_api_limit p (tool_api_id tool) w = (Ok b, w1) →
  if b then
    ∃ kw : gmap string tool_arg,
      kw !! "user_token" =
        Some (default (AVal (VStr (user_id p))) (kwargs !! "user_token")) ∧
      (is_python_interpreter tool = false →
       ∀ k, k ≠ "user_token" → kw !! k = kwargs !! k) ∧
      match tool_call tool args kw w1 with
      | (Ok x, w2) =>
          ∃ w3, wrapped_tool_executor p tool args kwargs w = (Ok (Returned x), w3) ∧
                same_docs w2 w3
      | (Raise e, w2) => wrapped_tool_executor p tool args kwargs w = (Raise e, w2)
      end
  else
    ∃ detail, wrapped_tool_executor p tool args kwargs w =
                (Ok (HTTPException 403 detail), w1).
Proof.
  intros Hcheck. unfold wrapped_tool_executor.
  erewrite bind_ok by exact Hcheck. destruct b; cbn [negb]; [|by eexists].
  match goal with |- context [tool_call tool args ?k] => exists k end.
  split; [|split].
  - case_bool_decide as Ht.
    + rewrite Ht. cbn. by destruct (is_python_interpreter tool); simplify_map_eq.
    + destruct (kwargs !! "user_token") as [v|] eqn:Hv; [|done]. cbn.
      by destruct (is_python_interpreter tool); simplify_map_eq.
  - intros -> k Hk. case_bool_decide; by simplify_map_eq.
  - match goal with |- context [tool_call tool args ?k w1] =>
      destruct (tool_call tool args k w1) as [[x|e] w2] eqn:Htool end.
    + destruct (increment_returns (user_id p) (tool_api_id tool) w2)
        as (w3 & Hinc & Hdocs).
      exists w3. split; [|done].
      erewrite bind_ok by exact Htool. by erewrite bind_ok by exact Hinc.
    + by apply bind_raise.
Qed.


Lemma wrapped_tool_executor_gate_witness :
  ∃ w3, wrapped_tool_executor (mk_profile "u2" "free" ["user"]) token_tool [] ∅
          (world_adjusted 71) = (Ok (Returned (VStr "u2")), w3) ∧
        same_docs (world_adjusted 71) w3.
Proof.
  destruct (wrapped_tool_executor_gate (mk_profile "u2" "free" ["user"])
              token_tool [] ∅ (world_adjusted 71) (world_adjusted 71) true)
    as (kw & Htoken & _ & Hrun); [vm_compute; reflexivity|].
  unfold token_tool, tool_call in Hrun. rewrite Htoken in Hrun. exact Hrun.
Defined.


(** X22. A pass is all or nothing: when adjusting some tier raises (a limit
    that is not a number, say), the pass raises out of its loop before the
    write, and no tier has been adjusted: the world is exactly as before. *)
Theorem adjust_pass_all_or_nothing (api_id : string) (w w' : world)
    (cap_m cap_d : Z) (e : exn) :
  pass_ready api_id w cap_m cap_d →
  _adjust_tier_limits_dynamically api_id w = (Raise e, w') →
  w' = w.
Proof.
  intros Hr Hrun. rewrite (adjust_pass_runs _ _ _ _ Hr) in Hrun.
  destruct (adjust_all_tiers _ _ _); congruence.
Qed.

Lemma pass_ready_text_limit : pass_ready "weather" world_text_limit 100 100.
Proof.
  split; [reflexivity|]. split; [by eapply usage_numeric_single|].
  split; [|lia]. eexists. split; [apply lookup_singleton_eq|].
  split; [apply insert_non_empty|]. split; reflexivity.
Qed.

Lemma adjust_pass_all_or_nothing_witness :
  fst (_adjust_tier_limits_dynamically "weather" world_text_limit) = Raise TypeError ∧
  snd (_adjust_tier_limits_dynamically "weather" world_text_limit) = world_text_limit.
Proof.
  split; [vm_compute; reflexivity|].
  apply (adjust_pass_all_or_nothing "weather" world_text_limit _ 100 100 TypeError
           pass_ready_text_limit).
  vm_compute; reflexivity.
Defined.
